(** * MinimalNLP: the Ipopt callback object of [main.cpp]

    The program defines one [TNLP] subclass, [MinimalNLP], for the problem
    "minimize (x-2)^2 subject to x >= 0", and a [main] that hands it to
    Ipopt.  This development embeds the callbacks and [main] and proves the
    properties the specification states about them.

    Modelling choices.
    - [Number] is Ipopt's [double].  The callbacks only use the literals
      [0.0], [2.0], [5.0], [1e19] and the operators [-] and [*].  They are
      written once over the interface [NumberOps] and read at two
      instances: [binary64] (IEEE 754 double precision, round to nearest
      even, from [SpecFloat]) is what the machine computes; [R] is the
      exact arithmetic in which the specification speaks of derivatives.
      [spec_float] has a single NaN: the sign and payload of a NaN are not
      modelled.
    - [Index] is Ipopt's [int]; only the values 0 and 1 occur, so [Z].
    - A pointer argument is a [ptr]: [nullptr] or an array owned by the
      solver.  Reading or writing outside the array (or through
      [nullptr]) is undefined behaviour in C++; the embedding stops with
      [None] there.
    - A callback is a member function of a non-const object, so it is a
      computation over the object state [MinimalNLP]; the buffers it may
      write are returned with the [bool] it returns.  The buffers of one
      call are distinct arrays, as the solver allocates them. *)

From Stdlib Require Import ZArith List Bool Lia.
From Stdlib Require String.
Import String.StringSyntax.
From Stdlib Require Import SpecFloat.
From Stdlib Require Import Reals Lra.
Import ListNotations.

Set Implicit Arguments.
Local Open Scope Z_scope.
Local Open Scope string_scope.

(** ** Numbers *)

Class NumberOps (Number : Type) : Type := {
  (** a floating literal of the source whose value is the integer [z] *)
  Nlit : Z -> Number;
  Nsub : Number -> Number -> Number;
  Nmul : Number -> Number -> Number
}.

Module Binary64.
Definition prec : Z := 53.
Definition emax : Z := 1024.
Definition binary64 : Type := spec_float.

Definition of_Z (z : Z) : binary64 := binary_normalize prec emax z 0 false.
Definition sub : binary64 -> binary64 -> binary64 := SFsub prec emax.
Definition mul : binary64 -> binary64 -> binary64 := SFmul prec emax.
Definition leb : binary64 -> binary64 -> bool := SFleb.
Definition valid (x : binary64) : bool := valid_binary prec emax x.
End Binary64.

#[export] Instance binary64_ops : NumberOps Binary64.binary64 := {
  Nlit := Binary64.of_Z;
  Nsub := Binary64.sub;
  Nmul := Binary64.mul
}.

#[export] Instance R_ops : NumberOps R := {
  Nlit := IZR;
  Nsub := Rminus;
  Nmul := Rmult
}.

Definition Index : Type := Z.

(** [TNLP::IndexStyleEnum] *)
Inductive IndexStyleEnum : Type :=
| C_STYLE
| FORTRAN_STYLE.

(** ** Pointers and the undefined-behaviour monad *)

Inductive ptr (A : Type) : Type :=
| nullptr : ptr A
| Array (cells : list A) : ptr A.
Arguments nullptr {A}.

(** [p[0]] as an rvalue *)
Definition load0 {A} (p : ptr A) : option A :=
  match p with
  | Array (a :: _) => Some a
  | _ => None
  end.

(** [p[0] = v] *)
Definition store0 {A} (p : ptr A) (v : A) : option (ptr A) :=
  match p with
  | Array (_ :: rest) => Some (Array (v :: rest))
  | _ => None
  end.

Definition is_null {A} (p : ptr A) : bool :=
  match p with
  | nullptr => true
  | Array _ => false
  end.

(** the array [p] points to has exactly [n] cells *)
Definition has_length {A} (p : ptr A) (n : Z) : Prop :=
  match p with
  | nullptr => False
  | Array cells => Z.of_nat (List.length cells) = n
  end.

(** the cells after the first, which no callback of this program touches *)
Definition tail_cells {A} (p : ptr A) : list A :=
  match p with
  | nullptr => []
  | Array cells => tl cells
  end.

(** ** The object and its member-function monad *)

(** [class MinimalNLP : public TNLP] declares no data member. *)
Record MinimalNLP : Type := Build_MinimalNLP { }.

(** A member function runs on the object, may change it, and may run into
    undefined behaviour. *)
Definition Method (A : Type) : Type := MinimalNLP -> option (A * MinimalNLP).

Definition ret {A} (a : A) : Method A :=
  fun this => Some (a, this).

Definition bind {A B} (c : Method A) (k : A -> Method B) : Method B :=
  fun this =>
    match c this with
    | Some (a, this') => k a this'
    | None => None
    end.

(** a memory access: undefined behaviour when it is out of the array *)
Definition access {A} (o : option A) : Method A :=
  fun this =>
    match o with
    | Some a => Some (a, this)
    | None => None
    end.

Notation "x <- c ;; k" := (bind c (fun x => k))
  (at level 61, c at next level, right associativity).

(** ** The callbacks *)

(** what [get_nlp_info] writes through its five references *)
Record nlp_info : Type := Build_nlp_info {
  info_n : Index;
  info_m : Index;
  info_nnz_jac_g : Index;
  info_nnz_h_lag : Index;
  info_index_style : IndexStyleEnum
}.

(** the two index buffers and the value buffer of a sparse matrix query *)
Record sparse (Number : Type) : Type := Build_sparse {
  iRow : ptr Index;
  jCol : ptr Index;
  values : ptr Number
}.

(** the buffers of [get_bounds_info] *)
Record bounds (Number : Type) : Type := Build_bounds {
  x_l : ptr Number;
  x_u : ptr Number;
  g_l : ptr Number;
  g_u : ptr Number
}.

(** the buffers of [get_starting_point] *)
Record starting_point (Number : Type) : Type := Build_starting_point {
  sp_x : ptr Number;
  sp_z_L : ptr Number;
  sp_z_U : ptr Number;
  sp_lambda : ptr Number
}.

Section Callbacks.
Context {Number : Type} `{NumberOps Number}.

Definition get_nlp_info (old : nlp_info) : Method (bool * nlp_info) :=
  ret (true,
       {| info_n := 1;
          info_m := 0;
          info_nnz_jac_g := 0;
          info_nnz_h_lag := 1;
          info_index_style := C_STYLE |}).

Definition get_bounds_info (n : Index) (x_l x_u : ptr Number)
    (m : Index) (g_l g_u : ptr Number) : Method (bool * bounds Number) :=
  x_l' <- access (store0 x_l (Nlit 0)) ;;
  x_u' <- access (store0 x_u (Nlit (10 ^ 19))) ;;
  ret (true, {| x_l := x_l'; x_u := x_u'; g_l := g_l; g_u := g_u |}).

Definition get_starting_point (n : Index) (init_x : bool) (x : ptr Number)
    (init_z : bool) (z_L z_U : ptr Number) (m : Index)
    (init_lambda : bool) (lambda : ptr Number)
    : Method (bool * starting_point Number) :=
  x' <- (if init_x then access (store0 x (Nlit 5)) else ret x) ;;
  ret (true,
       {| sp_x := x'; sp_z_L := z_L; sp_z_U := z_U; sp_lambda := lambda |}).

(** [obj_value] is a reference: its old content comes in, the new one
    goes out. *)
Definition eval_f (n : Index) (x : ptr Number) (new_x : bool)
    (obj_value : Number) : Method (bool * Number) :=
  a <- access (load0 x) ;;
  b <- access (load0 x) ;;
  ret (true, Nmul (Nsub a (Nlit 2)) (Nsub b (Nlit 2))).

Definition eval_grad_f (n : Index) (x : ptr Number) (new_x : bool)
    (grad_f : ptr Number) : Method (bool * ptr Number) :=
  a <- access (load0 x) ;;
  grad_f' <- access (store0 grad_f (Nmul (Nlit 2) (Nsub a (Nlit 2)))) ;;
  ret (true, grad_f').

Definition eval_g (n : Index) (x : ptr Number) (new_x : bool) (m : Index)
    (g : ptr Number) : Method (bool * ptr Number) :=
  ret (true, g).

Definition eval_jac_g (n : Index) (x : ptr Number) (new_x : bool)
    (m : Index) (nele_jac : Index) (iRow jCol : ptr Index)
    (values : ptr Number) : Method (bool * sparse Number) :=
  ret (true, {| iRow := iRow; jCol := jCol; values := values |}).

Definition eval_h (n : Index) (x : ptr Number) (new_x : bool)
    (obj_factor : Number) (m : Index) (lambda : ptr Number)
    (new_lambda : bool) (nele_hess : Index) (iRow jCol : ptr Index)
    (values : ptr Number) : Method (bool * sparse Number) :=
  if is_null values then
    iRow' <- access (store0 iRow 0) ;;
    jCol' <- access (store0 jCol 0) ;;
    ret (true, {| iRow := iRow'; jCol := jCol'; values := values |})
  else
    values' <- access (store0 values (Nmul obj_factor (Nlit 2))) ;;
    ret (true, {| iRow := iRow; jCol := jCol; values := values' |}).

End Callbacks.

(** ** The history of calls the solver makes on one object *)

Section History.
Context {Number : Type} `{NumberOps Number}.

(** one callback invocation with its arguments *)
Inductive call : Type :=
| Call_get_nlp_info (old : nlp_info)
| Call_get_bounds_info (n : Index) (x_l x_u : ptr Number)
    (m : Index) (g_l g_u : ptr Number)
| Call_get_starting_point (n : Index) (init_x : bool) (x : ptr Number)
    (init_z : bool) (z_L z_U : ptr Number) (m : Index)
    (init_lambda : bool) (lambda : ptr Number)
| Call_eval_f (n : Index) (x : ptr Number) (new_x : bool)
    (obj_value : Number)
| Call_eval_grad_f (n : Index) (x : ptr Number) (new_x : bool)
    (grad_f : ptr Number)
| Call_eval_g (n : Index) (x : ptr Number) (new_x : bool) (m : Index)
    (g : ptr Number)
| Call_eval_jac_g (n : Index) (x : ptr Number) (new_x : bool)
    (m : Index) (nele_jac : Index) (iRow jCol : ptr Index)
    (values : ptr Number)
| Call_eval_h (n : Index) (x : ptr Number) (new_x : bool)
    (obj_factor : Number) (m : Index) (lambda : ptr Number)
    (new_lambda : bool) (nele_hess : Index) (iRow jCol : ptr Index)
    (values : ptr Number).

(** run one invocation for its effect on the object *)
Definition perform (c : call) : Method bool :=
  match c with
  | Call_get_nlp_info old =>
      r <- get_nlp_info old ;; ret (fst r)
  | Call_get_bounds_info n x_l x_u m g_l g_u =>
      r <- get_bounds_info n x_l x_u m g_l g_u ;; ret (fst r)
  | Call_get_starting_point n init_x x init_z z_L z_U m init_lambda lambda =>
      r <- get_starting_point n init_x x init_z z_L z_U m init_lambda lambda ;;
      ret (fst r)
  | Call_eval_f n x new_x obj_value =>
      r <- eval_f n x new_x obj_value ;; ret (fst r)
  | Call_eval_grad_f n x new_x grad_f =>
      r <- eval_grad_f n x new_x grad_f ;; ret (fst r)
  | Call_eval_g n x new_x m g =>
      r <- eval_g n x new_x m g ;; ret (fst r)
  | Call_eval_jac_g n x new_x m nele_jac iRow jCol values =>
      r <- eval_jac_g n x new_x m nele_jac iRow jCol values ;; ret (fst r)
  | Call_eval_h n x new_x obj_factor m lambda new_lambda nele_hess
      iRow jCol values =>
      r <- eval_h n x new_x obj_factor m lambda new_lambda nele_hess
             iRow jCol values ;;
      ret (fst r)
  end.

(** run a sequence of invocations, oldest first, collecting what each
    returned *)
Fixpoint run (history : list call) : Method (list bool) :=
  match history with
  | [] => ret []
  | c :: later =>
      b <- perform c ;;
      bs <- run later ;;
      ret (b :: bs)
  end.

End History.

(** ** [main] *)

(** Ipopt's [ApplicationReturnStatus], with the enumerators' values *)
Inductive ApplicationReturnStatus : Type :=
| Solve_Succeeded
| Solved_To_Acceptable_Level
| Infeasible_Problem_Detected
| Search_Direction_Becomes_Too_Small
| Diverging_Iterates
| User_Requested_Stop
| Feasible_Point_Found
| Maximum_Iterations_Exceeded
| Restoration_Failed
| Error_In_Step_Computation
| Maximum_CpuTime_Exceeded
| Maximum_WallTime_Exceeded
| Not_Enough_Degrees_Of_Freedom
| Invalid_Problem_Definition
| Invalid_Option
| Invalid_Number_Detected
| Unrecoverable_Exception
| NonIpopt_Exception_Thrown
| Insufficient_Memory
| Internal_Error.

Definition status_value (s : ApplicationReturnStatus) : Z :=
  match s with
  | Solve_Succeeded => 0
  | Solved_To_Acceptable_Level => 1
  | Infeasible_Problem_Detected => 2
  | Search_Direction_Becomes_Too_Small => 3
  | Diverging_Iterates => 4
  | User_Requested_Stop => 5
  | Feasible_Point_Found => 6
  | Maximum_Iterations_Exceeded => -1
  | Restoration_Failed => -2
  | Error_In_Step_Computation => -3
  | Maximum_CpuTime_Exceeded => -4
  | Maximum_WallTime_Exceeded => -5
  | Not_Enough_Degrees_Of_Freedom => -10
  | Invalid_Problem_Definition => -11
  | Invalid_Option => -12
  | Invalid_Number_Detected => -13
  | Unrecoverable_Exception => -100
  | NonIpopt_Exception_Thrown => -101
  | Insufficient_Memory => -102
  | Internal_Error => -199
  end.

(** [a == b] on the enumeration *)
Definition status_eqb (a b : ApplicationReturnStatus) : bool :=
  status_value a =? status_value b.

(** what is inserted into a stream *)
Inductive item : Type :=
| Text (s : String.string)
| Status (s : ApplicationReturnStatus)
| Endl.

(** what [main] does that is visible outside it, in order *)
Inductive event : Type :=
| Cout (items : list item)
| Cerr (items : list item)
| SetIntegerValue (tag : String.string) (value : Z)
| SetStringValue (tag value : String.string)
| Initialize
| OptimizeTNLP (tnlp : MinimalNLP).

(** The library is a black box: [app] holds the status its [Initialize]
    answers and the status its [OptimizeTNLP] answers for a problem. *)
Record IpoptApplication : Type := Build_IpoptApplication {
  Initialize_status : ApplicationReturnStatus;
  OptimizeTNLP_status : MinimalNLP -> ApplicationReturnStatus
}.

Definition newline : String.string :=
  String.String (Ascii.ascii_of_nat 10) String.EmptyString.

Definition main (app : IpoptApplication) : Z * list event :=
  let mynlp := Build_MinimalNLP in
  let before_solve :=
    [ Cout [Text "IPOPT Minimal Example"; Endl];
      Cout [Text "Minimize: (x-2)^2"; Endl];
      Cout [Text "Subject to: x >= 0"; Endl];
      Cout [Text "Starting point: x = 5"; Endl];
      SetIntegerValue "print_level" 5;
      SetStringValue "linear_solver" "mumps";
      SetStringValue "mu_strategy" "adaptive";
      Initialize ] in
  let status := Initialize_status app in
  if negb (status_eqb status Solve_Succeeded) then
    (1, before_solve ++ [Cerr [Text "IPOPT initialization failed!"; Endl]])
  else
    let status := OptimizeTNLP_status app mynlp in
    if status_eqb status Solve_Succeeded then
      (0, before_solve ++
          [ OptimizeTNLP mynlp;
            Cout [Text (String.append newline "Optimization succeeded!");
                  Endl] ])
    else
      (1, before_solve ++
          [ OptimizeTNLP mynlp;
            Cerr [Text (String.append newline
                          "Optimization failed with status ");
                  Status status; Endl] ]).

(** a solve was attempted *)
Definition is_OptimizeTNLP (e : event) : bool :=
  match e with
  | OptimizeTNLP _ => true
  | _ => false
  end.

Definition solve_attempted (trace : list event) : bool :=
  existsb is_OptimizeTNLP trace.

(** ** The specification's formulas, for comparison with the code *)

(** the objective in the specification's words: (x-2)^2 *)
Definition spec_objective (x : R) : R := ((x - 2) ^ 2)%R.

(** the real function [eval_f] computes: what it leaves in [obj_value]
    for the one-variable iterate [t] *)
Definition objective_of_eval_f (t : R) : R :=
  match eval_f 1 (Array [t]) true 0%R Build_MinimalNLP with
  | Some ((_, v), _) => v
  | None => 0%R
  end.

(** [d2] is the second derivative of [f] at [x] *)
Definition second_derivative_at (f : R -> R) (x d2 : R) : Prop :=
  exists f' : R -> R,
    (forall t, derivable_pt_lim f t (f' t)) /\ derivable_pt_lim f' x d2.

Module Binary64Literals.
Import Binary64.
(** the doubles 0.0, 1.0, 2.0, 5.0, 9.0, 6.0 and 1e19, given by sign,
    53-bit significand and exponent *)
Definition zero : binary64 := S754_zero false.
Definition one : binary64 := S754_finite false 4503599627370496 (-52).
Definition two : binary64 := S754_finite false 4503599627370496 (-51).
Definition five : binary64 := S754_finite false 5629499534213120 (-50).
Definition nine : binary64 := S754_finite false 5066549580791808 (-49).
Definition six : binary64 := S754_finite false 6755399441055744 (-50).
Definition ten_to_19 : binary64 := S754_finite false 4882812500000000 11.

(** the finite double [x] has exactly the integer value [z] *)
Definition denotes (x : binary64) (z : Z) : bool :=
  match x with
  | S754_zero _ => z =? 0
  | S754_finite s m e =>
      let v := if s then Z.neg m else Z.pos m in
      if 0 <=? e then v * 2 ^ e =? z else v =? z * 2 ^ (- e)
  | _ => false
  end.
End Binary64Literals.

(** ** When a call stays inside the buffers it is given *)

(** [p] points to an array with a cell at index 0 *)
Definition has_cell0 {A} (p : ptr A) : bool :=
  match p with
  | Array (_ :: _) => true
  | _ => false
  end.

(** every cell the invocation reads or writes exists *)
Definition in_bounds {Number : Type} (c : @call Number) : bool :=
  match c with
  | Call_get_nlp_info _ => true
  | Call_get_bounds_info _ x_l x_u _ _ _ => has_cell0 x_l && has_cell0 x_u
  | Call_get_starting_point _ init_x x _ _ _ _ _ _ =>
      if init_x then has_cell0 x else true
  | Call_eval_f _ x _ _ => has_cell0 x
  | Call_eval_grad_f _ x _ grad_f => has_cell0 x && has_cell0 grad_f
  | Call_eval_g _ _ _ _ _ => true
  | Call_eval_jac_g _ _ _ _ _ _ _ _ => true
  | Call_eval_h _ _ _ _ _ _ _ _ iRow jCol values =>
      if is_null values then has_cell0 iRow && has_cell0 jCol
      else has_cell0 values
  end.

(** ** Doubles against exact arithmetic on integer iterates *)

(** at the iterate [z] (and objective weight [z]) the doubles the three
    evaluation callbacks leave are exactly (z-2)^2, 2(z-2) and 2z *)
Definition exact_at (z : Z) : bool :=
  let d := Binary64.of_Z z in
  let o := Binary64Literals.zero in
  match eval_f 1 (Array [d]) true o Build_MinimalNLP,
        eval_grad_f 1 (Array [d]) true (Array [o]) Build_MinimalNLP,
        eval_h 1 (Array [d]) true d 0 nullptr true 1 nullptr nullptr
          (Array [o]) Build_MinimalNLP
  with
  | Some ((true, f), _), Some ((true, Array [g]), _),
    Some ((true, {| values := Array [h] |}), _) =>
      Binary64Literals.denotes f ((z - 2) ^ 2)
      && Binary64Literals.denotes g (2 * (z - 2))
      && Binary64Literals.denotes h (z * 2)
  | _, _, _ => false
  end.

(** the integers from -1024 to 1024 *)
Definition integer_grid : list Z :=
  map (fun k => Z.of_nat k - 1024) (seq 0 2049).

(** ** [finalize_solution] *)

(** what [finalize_solution] inserts into [std::cout] *)
Inductive report_item (Number : Type) : Type :=
| RText (s : String.string)
| RNumber (v : Number)
| REndl.
Arguments RText {Number}.
Arguments REndl {Number}.

(** Ipopt's [SolverReturn], [IpoptData] and [IpoptCalculatedQuantities]
    are the library's; the function uses none of the three arguments, so
    their types are left open. *)
Definition finalize_solution
    {Number SolverReturn IpoptData IpoptCalculatedQuantities : Type}
    (status : SolverReturn) (n : Index) (x z_L z_U : ptr Number)
    (m : Index) (g lambda : ptr Number) (obj_value : Number)
    (ip_data : ptr IpoptData) (ip_cq : ptr IpoptCalculatedQuantities)
    : Method (list (report_item Number)) :=
  a <- access (load0 x) ;;
  ret [ RText (String.append newline "=== Solution ==="); REndl;
        RText "x = "; RNumber a; REndl;
        RText "f(x) = "; RNumber obj_value; REndl;
        RText "Expected: x = 2.0, f(x) = 0.0"; REndl ].

(** the numbers a report shows, in order *)
Definition numbers_shown {Number : Type} (report : list (report_item Number))
    : list Number :=
  flat_map (fun i => match i with RNumber v => [v] | _ => [] end) report.

(** ** Classes of doubles *)

Definition is_finite (x : Binary64.binary64) : bool :=
  match x with
  | S754_zero _ | S754_finite _ _ _ => true
  | S754_infinity _ | S754_nan => false
  end.

(** the sign of a double that is not NaN: set for a negative number, -0.0
    and -inf.  [spec_float] has one NaN, which carries no sign, so NaN has
    none here. *)
Definition sign_of (x : Binary64.binary64) : option bool :=
  match x with
  | S754_zero s | S754_infinity s | S754_finite s _ _ => Some s
  | S754_nan => None
  end.

(** ** Reading the trace of [main] *)

Definition is_Cerr (e : event) : bool :=
  match e with
  | Cerr _ => true
  | _ => false
  end.

Definition is_option (e : event) : bool :=
  match e with
  | SetIntegerValue _ _ | SetStringValue _ _ => true
  | _ => false
  end.

Definition is_Initialize (e : event) : bool :=
  match e with
  | Initialize => true
  | _ => false
  end.

(** the statuses written to a stream, in order *)
Definition statuses_printed (trace : list event)
    : list ApplicationReturnStatus :=
  flat_map
    (fun e =>
       match e with
       | Cout items | Cerr items =>
           flat_map (fun i => match i with Status s => [s] | _ => [] end)
             items
       | _ => []
       end) trace.

(** what [main] does before it calls [Initialize]: the four banner lines
    and the three option settings *)
Definition before_Initialize : list event :=
  [ Cout [Text "IPOPT Minimal Example"; Endl];
    Cout [Text "Minimize: (x-2)^2"; Endl];
    Cout [Text "Subject to: x >= 0"; Endl];
    Cout [Text "Starting point: x = 5"; Endl];
    SetIntegerValue "print_level" 5;
    SetStringValue "linear_solver" "mumps";
    SetStringValue "mu_strategy" "adaptive" ].

(** ** Doubles that hold integers *)

(** the 53-bit significand and the exponent of the double that holds the
    positive integer [p] of at most 53 bits: [p] shifted left to 53 bits,
    and the exponent that undoes the shift *)
Definition int_sig (p : positive) : positive :=
  Z.to_pos (Z.pos p * 2 ^ (53 - Z.pos (digits2_pos p))).

Definition int_exp (p : positive) : Z := Z.pos (digits2_pos p) - 53.

Definition int_float (s : bool) (p : positive) : Binary64.binary64 :=
  S754_finite s (int_sig p) (int_exp p).

(** ** Basic facts *)

Lemma MinimalNLP_unique (a b : MinimalNLP) : a = b.
Proof. destruct a, b. reflexivity. Qed.

Lemma binary64_literals :
  Nlit 0 = Binary64Literals.zero /\
  Nlit 2 = Binary64Literals.two /\
  Nlit 5 = Binary64Literals.five /\
  Nlit (10 ^ 19) = Binary64Literals.ten_to_19.
Proof. repeat split; vm_compute; reflexivity. Qed.

Lemma binary64_literals_exact :
  Binary64Literals.denotes (Nlit 0) 0 = true /\
  Binary64Literals.denotes (Nlit 2) 2 = true /\
  Binary64Literals.denotes (Nlit 5) 5 = true /\
  Binary64Literals.denotes (Nlit (10 ^ 19)) (10 ^ 19) = true.
Proof. repeat split; vm_compute; reflexivity. Qed.

Section Generic.
Context {Number : Type} `{NumberOps Number}.

Lemma eval_f_defined this n (x0 : Number) rest new_x old :
  eval_f n (Array (x0 :: rest)) new_x old this
  = Some ((true, Nmul (Nsub x0 (Nlit 2)) (Nsub x0 (Nlit 2))), this).
Proof. reflexivity. Qed.

Lemma eval_grad_f_defined this n (x0 : Number) rest new_x g0 grest :
  eval_grad_f n (Array (x0 :: rest)) new_x (Array (g0 :: grest)) this
  = Some ((true, Array (Nmul (Nlit 2) (Nsub x0 (Nlit 2)) :: grest)), this).
Proof. reflexivity. Qed.

Lemma eval_h_values_defined this n x new_x (obj_factor : Number) m lambda
    new_lambda nele_hess iRow jCol v0 vrest :
  eval_h n x new_x obj_factor m lambda new_lambda nele_hess iRow jCol
    (Array (v0 :: vrest)) this
  = Some ((true, {| iRow := iRow; jCol := jCol;
                    values := Array (Nmul obj_factor (Nlit 2) :: vrest) |}),
          this).
Proof. reflexivity. Qed.

Lemma eval_h_structure_defined this n (x : ptr Number) new_x obj_factor m
    lambda new_lambda nele_hess r0 rrest c0 crest :
  eval_h n x new_x obj_factor m lambda new_lambda nele_hess
    (Array (r0 :: rrest)) (Array (c0 :: crest)) nullptr this
  = Some ((true, {| iRow := Array (0 :: rrest); jCol := Array (0 :: crest);
                    values := nullptr |}),
          this).
Proof. reflexivity. Qed.

End Generic.

Lemma objective_of_eval_f_eq (t : R) :
  objective_of_eval_f t = ((t - 2) * (t - 2))%R.
Proof. reflexivity. Qed.

Lemma derivable_pt_lim_value (f : R -> R) (x l l' : R) :
  l = l' -> derivable_pt_lim f x l -> derivable_pt_lim f x l'.
Proof. intros <- D. exact D. Qed.

Lemma shift_derivative (t : R) :
  derivable_pt_lim (fun u => u - 2)%R t 1%R.
Proof.
  apply derivable_pt_lim_value with (l := (1 - 0)%R); [ring |].
  apply (derivable_pt_lim_minus id (fun _ => 2%R));
    [apply derivable_pt_lim_id | apply derivable_pt_lim_const].
Qed.

Lemma objective_derivative (t : R) :
  derivable_pt_lim objective_of_eval_f t (2 * (t - 2))%R.
Proof.
  apply derivable_pt_lim_value with (l := (1 * (t - 2) + (t - 2) * 1)%R);
    [ring |].
  exact (derivable_pt_lim_mult _ _ t 1%R 1%R
           (shift_derivative t) (shift_derivative t)).
Qed.

Lemma gradient_derivative (t : R) :
  derivable_pt_lim (fun u => 2 * (u - 2))%R t 2%R.
Proof.
  apply derivable_pt_lim_value with (l := (0 * (t - 2) + 2 * 1)%R);
    [ring |].
  exact (derivable_pt_lim_mult (fun _ => 2%R) (fun u => (u - 2)%R) t 0%R 1%R
           (derivable_pt_lim_const 2%R t) (shift_derivative t)).
Qed.

Lemma objective_second_derivative (t : R) :
  second_derivative_at objective_of_eval_f t 2%R.
Proof.
  exists (fun u => 2 * (u - 2))%R. split.
  - intro u. apply objective_derivative.
  - apply gradient_derivative.
Qed.

Lemma second_derivative_unique (f : R -> R) (x a b : R) :
  second_derivative_at f x a -> second_derivative_at f x b -> a = b.
Proof.
  intros [f1 [D1 L1]] [f2 [D2 L2]].
  assert (E : forall t, f1 t = f2 t).
  { intro t. exact (uniqueness_limite f t _ _ (D1 t) (D2 t)). }
  apply (uniqueness_limite f2 x); [| exact L2].
  intros eps Heps. destruct (L1 eps Heps) as [delta Hd].
  exists delta. intros h Hh Hlt. rewrite <- !E. exact (Hd h Hh Hlt).
Qed.

(** ** Rounding on doubles is exact on integers *)

Unset Implicit Arguments.

Lemma iter_pos_iter {A : Type} (f : A -> A) (p : positive) (x : A) :
  SpecFloat.iter_pos f p x = Pos.iter f x p.
Proof.
  revert x. induction p as [p IH | p IH |]; intro x;
    cbn [SpecFloat.iter_pos Pos.iter].
  - rewrite !IH. rewrite <- !Pos.iter_swap. reflexivity.
  - rewrite !IH. reflexivity.
  - reflexivity.
Qed.

Lemma digits2_pos_size (p : positive) : digits2_pos p = Pos.size p.
Proof. induction p as [p IH | p IH |]; cbn; congruence. Qed.

Lemma digits2_pos_log2 (p : positive) :
  Z.pos (digits2_pos p) = Z.log2 (Z.pos p) + 1.
Proof.
  rewrite digits2_pos_size.
  destruct p; cbn [Z.log2 Pos.size]; rewrite ?Pos2Z.inj_succ; lia.
Qed.

(** shifting in [k] zero bits *)
Lemma iter_xO_pow (m k : positive) :
  Z.pos (Pos.iter xO m k) = Z.pos m * 2 ^ Z.pos k.
Proof.
  induction k as [| k IH] using Pos.peano_ind.
  - cbn [Pos.iter]. lia.
  - rewrite Pos.iter_succ, Pos2Z.inj_xO, IH, Pos2Z.inj_succ.
    rewrite Z.pow_succ_r by lia. lia.
Qed.

(** shifting out [k] zero bits loses nothing *)
Lemma shr_exact (k : positive) :
  forall mx m' : positive,
    Z.pos mx = Z.pos m' * 2 ^ Z.pos k ->
    SpecFloat.iter_pos shr_1 k
      {| shr_m := Z.pos mx; shr_r := false; shr_s := false |}
    = {| shr_m := Z.pos m'; shr_r := false; shr_s := false |}.
Proof.
  intros mx m' E. rewrite iter_pos_iter. revert mx m' E.
  induction k as [| k IH] using Pos.peano_ind; intros mx m' E.
  - cbn [Pos.iter]. destruct mx as [q | q |]; try lia.
    cbn [shr_1 orb]. f_equal. lia.
  - rewrite Pos.iter_succ_r.
    rewrite Pos2Z.inj_succ, Z.pow_succ_r in E by lia.
    destruct mx as [q | q |]; try lia.
    cbn [shr_1 orb]. apply IH. lia.
Qed.

Lemma digits2_pos_shift (mx m' : positive) (k : Z) :
  0 <= k -> Z.pos mx = Z.pos m' * 2 ^ k ->
  Z.pos (digits2_pos mx) = Z.pos (digits2_pos m') + k.
Proof.
  intros Hk E. rewrite !digits2_pos_log2, E.
  rewrite Z.log2_mul_pow2 by lia. lia.
Qed.

(** rounding a significand that is a 53-bit one followed by [k] zero bits
    gives the 53-bit one, with the exponent raised by [k] *)
Lemma round_aux_exact (sx : bool) (mx m' : positive) (ex k : Z) :
  0 <= k -> Z.pos mx = Z.pos m' * 2 ^ k ->
  digits2_pos m' = 53%positive ->
  -1074 <= ex + k <= 971 ->
  binary_round_aux 53 1024 sx (Z.pos mx) ex loc_Exact
  = S754_finite sx m' (ex + k).
Proof.
  intros Hk E D R.
  assert (Dx := digits2_pos_shift mx m' k Hk E). rewrite D in Dx.
  unfold binary_round_aux, shr_fexp. cbn [Zdigits2 shr_record_of_loc].
  rewrite Dx.
  replace (fexp 53 1024 (53 + k + ex) - ex) with k
    by (unfold fexp, emin; lia).
  assert (S1 : shr {| shr_m := Z.pos mx; shr_r := false; shr_s := false |}
                 ex k
               = ({| shr_m := Z.pos m'; shr_r := false; shr_s := false |},
                  ex + k)).
  { destruct k as [| q | q]; cbn [shr].
    - f_equal; [| lia]. f_equal. lia.
    - rewrite (shr_exact q mx m' E). reflexivity.
    - lia. }
  rewrite S1.
  cbn [shr_m loc_of_shr_record round_nearest_even Zdigits2 shr_record_of_loc].
  rewrite D.
  replace (fexp 53 1024 (53 + (ex + k)) - (ex + k)) with 0
    by (unfold fexp, emin; lia).
  cbn [shr shr_m].
  destruct (Z.leb_spec (ex + k) (1024 - 53)); [reflexivity | lia].
Qed.

Lemma digits_bound (p : positive) :
  Z.pos p < 2 ^ 53 -> Z.pos (digits2_pos p) <= 53.
Proof.
  intro L. rewrite digits2_pos_log2.
  assert (Z.log2 (Z.pos p) < 53); [| lia].
  apply Z.log2_lt_pow2; lia.
Qed.

Lemma int_exp_range (p : positive) :
  Z.pos (digits2_pos p) <= 53 -> -52 <= int_exp p <= 0.
Proof. unfold int_exp. lia. Qed.

Lemma int_sig_value (p : positive) :
  Z.pos (digits2_pos p) <= 53 ->
  Z.pos (int_sig p) = Z.pos p * 2 ^ (53 - Z.pos (digits2_pos p)).
Proof.
  intro L. unfold int_sig. rewrite Z2Pos.id; [reflexivity |].
  apply Z.mul_pos_pos; [lia | apply Z.pow_pos_nonneg; lia].
Qed.

Lemma int_sig_digits (p : positive) :
  Z.pos (digits2_pos p) <= 53 ->
  digits2_pos (int_sig p) = 53%positive.
Proof.
  intro L.
  assert (E := digits2_pos_shift (int_sig p) p
                 (53 - Z.pos (digits2_pos p)) ltac:(lia) (int_sig_value p L)).
  lia.
Qed.

(** rounding the integer [p], written with [- ex] extra zero bits *)
Lemma binary_round_int (sx : bool) (mx p : positive) (ex : Z) :
  ex <= 0 -> Z.pos mx = Z.pos p * 2 ^ (- ex) ->
  Z.pos (digits2_pos p) <= 53 ->
  binary_round 53 1024 sx mx ex = int_float sx p.
Proof.
  intros Hex E L. unfold binary_round, int_float.
  assert (Dx := digits2_pos_shift mx p (- ex) ltac:(lia) E).
  rewrite Dx.
  replace (fexp 53 1024 (Z.pos (digits2_pos p) + - ex + ex))
    with (int_exp p) by (unfold fexp, emin, int_exp; lia).
  assert (V := int_sig_value p L). assert (D := int_sig_digits p L).
  unfold shl_align. destruct (int_exp p - ex) as [| d | d] eqn:Ed.
  - replace (int_exp p) with (ex + 0) by lia.
    apply round_aux_exact; [lia | | exact D | unfold int_exp in *; lia].
    rewrite V, E. replace (- ex) with (53 - Z.pos (digits2_pos p))
      by (unfold int_exp in *; lia). lia.
  - replace (int_exp p) with (ex + Z.pos d) by lia.
    apply round_aux_exact; [lia | | exact D | unfold int_exp in *; lia].
    rewrite V, E, <- Z.mul_assoc, <- Z.pow_add_r by (unfold int_exp in *; lia).
    f_equal. f_equal. unfold int_exp in *. lia.
  - replace (int_exp p) with (int_exp p + 0) at 2 by lia.
    apply round_aux_exact; [lia | | exact D | unfold int_exp in *; lia].
    rewrite iter_xO_pow, V, E, <- Z.mul_assoc, <- Z.pow_add_r
      by (unfold int_exp in *; lia).
    rewrite Z.pow_0_r, Z.mul_1_r. f_equal. f_equal.
    unfold int_exp in *. lia.
Qed.

Lemma of_Z_pos (p : positive) :
  Z.pos p < 2 ^ 53 -> Binary64.of_Z (Z.pos p) = int_float false p.
Proof.
  intro L. unfold Binary64.of_Z, Binary64.prec, Binary64.emax.
  cbn [binary_normalize].
  apply binary_round_int; [lia | cbn; lia | apply digits_bound; exact L].
Qed.

Lemma of_Z_neg (p : positive) :
  Z.pos p < 2 ^ 53 -> Binary64.of_Z (Z.neg p) = int_float true p.
Proof.
  intro L. unfold Binary64.of_Z, Binary64.prec, Binary64.emax.
  cbn [binary_normalize].
  apply binary_round_int; [lia | cbn; lia | apply digits_bound; exact L].
Qed.

(** normalising an integer written with [- ez] extra zero bits *)
Lemma normalize_int (c ez : Z) :
  ez <= 0 -> Z.abs c < 2 ^ 53 ->
  binary_normalize 53 1024 (c * 2 ^ (- ez)) ez false = Binary64.of_Z c.
Proof.
  intros Hez Hc.
  assert (P : 0 < 2 ^ (- ez)) by (apply Z.pow_pos_nonneg; lia).
  destruct c as [| p | p].
  - reflexivity.
  - rewrite of_Z_pos by lia.
    destruct (Z.pos p * 2 ^ (- ez)) as [| mx | mx] eqn:E; try lia.
    cbn [binary_normalize].
    apply binary_round_int;
      [lia | symmetry; exact E | apply digits_bound; lia].
  - rewrite of_Z_neg by lia.
    destruct (Z.neg p * 2 ^ (- ez)) as [| mx | mx] eqn:E; try lia.
    cbn [binary_normalize].
    apply binary_round_int; [lia | lia | apply digits_bound; lia].
Qed.

Lemma align_value (m : positive) (e ez : Z) :
  ez <= e ->
  Z.pos (fst (shl_align m e ez)) = Z.pos m * 2 ^ (e - ez).
Proof.
  intro L. unfold shl_align.
  destruct (ez - e) as [| d | d] eqn:E; cbn [fst]; try lia.
  - replace (e - ez) with 0 by lia. lia.
  - rewrite iter_xO_pow. f_equal. f_equal. lia.
Qed.

(** the signed integer a double in integer form holds, aligned to the
    exponent [ez] *)
Lemma int_float_aligned (s : bool) (p : positive) (ez : Z) :
  Z.pos (digits2_pos p) <= 53 -> ez <= int_exp p ->
  cond_Zopp s (Z.pos (fst (shl_align (int_sig p) (int_exp p) ez)))
  = (if s then Z.neg p else Z.pos p) * 2 ^ (- ez).
Proof.
  intros L Hez. rewrite align_value by exact Hez.
  rewrite (int_sig_value p L).
  assert (R := int_exp_range p L).
  replace (53 - Z.pos (digits2_pos p)) with (- int_exp p)
    by (unfold int_exp; lia).
  rewrite <- Z.mul_assoc, <- Z.pow_add_r by lia.
  replace (- int_exp p + (int_exp p - ez)) with (- ez) by lia.
  destruct s; cbn [cond_Zopp]; lia.
Qed.

Lemma of_Z_int_float (z : Z) :
  z <> 0 -> Z.abs z < 2 ^ 53 ->
  exists (s : bool) (p : positive),
    Binary64.of_Z z = int_float s p
    /\ z = (if s then Z.neg p else Z.pos p)
    /\ Z.pos (digits2_pos p) <= 53.
Proof.
  intros Nz Hz. destruct z as [| p | p]; [contradiction | |].
  - exists false, p. rewrite of_Z_pos by lia.
    repeat split. apply digits_bound. lia.
  - exists true, p. rewrite of_Z_neg by lia.
    repeat split. apply digits_bound. lia.
Qed.

(** the difference of two integer doubles is the double of the
    difference *)
Lemma sub_int (a b : Z) :
  Z.abs a < 2 ^ 53 -> Z.abs b < 2 ^ 53 -> Z.abs (a - b) < 2 ^ 53 ->
  Binary64.sub (Binary64.of_Z a) (Binary64.of_Z b) = Binary64.of_Z (a - b).
Proof.
  intros Ha Hb Hab.
  destruct (Z.eq_dec b 0) as [-> | Nb].
  - rewrite Z.sub_0_r.
    destruct (Z.eq_dec a 0) as [-> | Na]; [reflexivity |].
    destruct (of_Z_int_float a Na Ha) as (s & p & -> & _ & _). reflexivity.
  - destruct (of_Z_int_float b Nb Hb) as (sb & pb & Eb & Vb & Lb).
    destruct (Z.eq_dec a 0) as [-> | Na].
    + rewrite Eb. change (Binary64.of_Z 0) with (S754_zero false).
      unfold Binary64.sub. cbn [SFsub int_float].
      subst b. destruct sb; cbn [negb Z.sub Z.add Z.opp].
      * rewrite of_Z_pos by lia. reflexivity.
      * rewrite of_Z_neg by lia. reflexivity.
    + destruct (of_Z_int_float a Na Ha) as (sa & pa & Ea & Va & La).
      rewrite Ea, Eb.
      unfold Binary64.sub, Binary64.prec, Binary64.emax.
      cbn [SFsub int_float].
      assert (Ra := int_exp_range pa La). assert (Rb := int_exp_range pb Lb).
      rewrite (int_float_aligned sa pa) by (exact La || lia).
      rewrite (int_float_aligned sb pb) by (exact Lb || lia).
      rewrite <- Va, <- Vb, <- Z.mul_sub_distr_r.
      apply normalize_int; [lia | exact Hab].
Qed.

Lemma sqr_float (s : bool) (p : positive) :
  Z.pos (p * p) < 2 ^ 53 ->
  Binary64.mul (int_float s p) (int_float s p) = int_float false (p * p).
Proof.
  intro L. unfold Binary64.mul, Binary64.prec, Binary64.emax, int_float.
  cbn [SFmul]. rewrite xorb_nilpotent.
  assert (L2 := digits_bound (p * p) L).
  assert (L1 : Z.pos (digits2_pos p) <= 53).
  { apply digits_bound. nia. }
  assert (G : 2 * Z.pos (digits2_pos p) - 1 <= Z.pos (digits2_pos (p * p))).
  { rewrite !digits2_pos_log2, Pos2Z.inj_mul.
    assert (B := Z.log2_mul_below (Z.pos p) (Z.pos p) ltac:(lia) ltac:(lia)).
    lia. }
  replace (int_exp (p * p))
    with (int_exp p + int_exp p + (int_exp (p * p) - 2 * int_exp p)) by lia.
  apply round_aux_exact.
  - unfold int_exp. lia.
  - rewrite Pos2Z.inj_mul, (int_sig_value p L1), (int_sig_value (p * p) L2).
    rewrite Pos2Z.inj_mul.
    assert (H : 2 ^ (53 - Z.pos (digits2_pos p)) *
                2 ^ (53 - Z.pos (digits2_pos p))
                = 2 ^ (53 - Z.pos (digits2_pos (p * p))) *
                  2 ^ (int_exp (p * p) - 2 * int_exp p)).
    { rewrite <- !Z.pow_add_r by (unfold int_exp; lia).
      f_equal. unfold int_exp. lia. }
    transitivity (Z.pos p * Z.pos p *
                  (2 ^ (53 - Z.pos (digits2_pos p)) *
                   2 ^ (53 - Z.pos (digits2_pos p)))); [ring |].
    rewrite H. ring.
  - apply int_sig_digits. exact L2.
  - unfold int_exp. lia.
Qed.

(** the square of an integer double is the double of the square, as long
    as the square has at most 53 bits *)
Lemma sqr_int (c : Z) :
  c * c < 2 ^ 53 ->
  Binary64.mul (Binary64.of_Z c) (Binary64.of_Z c) = Binary64.of_Z (c * c).
Proof.
  intro L. destruct c as [| p | p].
  - reflexivity.
  - assert (Z.pos p < 2 ^ 53) by nia.
    rewrite of_Z_pos by assumption. rewrite sqr_float by exact L.
    symmetry. apply (of_Z_pos (p * p)). exact L.
  - assert (Z.pos p < 2 ^ 53) by nia.
    rewrite of_Z_neg by assumption. rewrite sqr_float by exact L.
    symmetry. apply (of_Z_pos (p * p)). exact L.
Qed.

Lemma two_mul_float (s : bool) (p : positive) :
  Z.pos p < 2 ^ 52 ->
  Binary64.mul Binary64Literals.two (int_float s p) = int_float s (p~0).
Proof.
  intro L.
  unfold Binary64.mul, Binary64.prec, Binary64.emax, Binary64Literals.two,
    int_float.
  cbn [SFmul xorb].
  assert (L1 : Z.pos (digits2_pos p) <= 53) by (apply digits_bound; lia).
  assert (L2 : Z.pos (digits2_pos p~0) <= 53) by (apply digits_bound; lia).
  assert (D : Z.pos (digits2_pos p~0) = Z.pos (digits2_pos p) + 1).
  { cbn [digits2_pos]. lia. }
  replace (int_exp p~0) with (-51 + int_exp p + 52) by (unfold int_exp; lia).
  apply round_aux_exact.
  - lia.
  - rewrite Pos2Z.inj_mul, (int_sig_value p L1), (int_sig_value (p~0) L2).
    rewrite D.
    replace (53 - Z.pos (digits2_pos p))
      with (53 - (Z.pos (digits2_pos p) + 1) + 1) by lia.
    rewrite Z.pow_add_r by lia. change (2 ^ 52) with 4503599627370496.
    lia.
  - apply int_sig_digits. exact L2.
  - unfold int_exp. lia.
Qed.

(** 2.0 times an integer double is the double of twice the integer *)
Lemma two_mul_int (c : Z) :
  Z.abs c < 2 ^ 52 ->
  Binary64.mul Binary64Literals.two (Binary64.of_Z c)
  = Binary64.of_Z (2 * c).
Proof.
  intro L. destruct c as [| p | p].
  - reflexivity.
  - rewrite of_Z_pos by lia. rewrite two_mul_float by lia.
    symmetry. apply (of_Z_pos (p~0)). lia.
  - rewrite of_Z_neg by lia. rewrite two_mul_float by lia.
    symmetry. apply (of_Z_neg (p~0)). lia.
Qed.

(** [of_Z z] is the double whose value is the integer [z] *)
Lemma denotes_of_Z (z : Z) :
  Z.abs z < 2 ^ 53 -> Binary64Literals.denotes (Binary64.of_Z z) z = true.
Proof.
  intro L.
  assert (F : forall s p, Z.pos p < 2 ^ 53 ->
              Binary64Literals.denotes (int_float s p)
                (if s then Z.neg p else Z.pos p) = true).
  { intros s p Lp. assert (Ld := digits_bound p Lp).
    assert (R := int_exp_range p Ld). assert (V := int_sig_value p Ld).
    unfold int_float. cbn [Binary64Literals.denotes].
    replace (53 - Z.pos (digits2_pos p)) with (- int_exp p) in V
      by (unfold int_exp; lia).
    destruct (Z.leb_spec 0 (int_exp p)) as [G | G]; apply Z.eqb_eq.
    - replace (int_exp p) with 0 in * by lia. cbn [Z.opp] in V.
      rewrite Z.pow_0_r in *. destruct s; lia.
    - destruct s; lia. }
  destruct z as [| p | p].
  - reflexivity.
  - rewrite of_Z_pos by lia. apply (F false). lia.
  - rewrite of_Z_neg by lia. apply (F true). lia.
Qed.

Set Implicit Arguments.

(** ** Objective, gradient and Hessian *)

(** C1 (amended).  [eval_f] reports success for every iterate and leaves
    the object as it was.  In exact arithmetic the value it leaves in
    [obj_value] is the objective of the specification, (x[0]-2)^2, for
    every iterate.  On doubles the value is the rounded product of the
    rounded difference [x[0] - 2.0] with itself, and it is exactly
    (x[0]-2)^2, the specification's objective at that iterate, at every
    integer iterate with (x[0]-2)^2 < 2^53. *)
Theorem eval_f_returns_objective :
  (forall this n (x0 : R) rest new_x old,
      eval_f n (Array (x0 :: rest)) new_x old this
      = Some ((true, spec_objective x0), this))
  /\
  (forall this n (x0 : Binary64.binary64) rest new_x old,
      eval_f n (Array (x0 :: rest)) new_x old this
      = Some ((true,
               Binary64.mul (Binary64.sub x0 Binary64Literals.two)
                            (Binary64.sub x0 Binary64Literals.two)),
              this))
  /\
  (forall this n (z : Z) rest new_x old,
      (z - 2) ^ 2 < 2 ^ 53 ->
      eval_f n (Array (Binary64.of_Z z :: rest)) new_x old this
      = Some ((true, Binary64.of_Z ((z - 2) ^ 2)), this)
      /\ Binary64Literals.denotes (Binary64.of_Z z) z = true
      /\ Binary64Literals.denotes (Binary64.of_Z ((z - 2) ^ 2))
           ((z - 2) ^ 2) = true
      /\ spec_objective (IZR z) = IZR ((z - 2) ^ 2)).
Proof.
  split; [| split]; intros.
  - rewrite eval_f_defined. unfold spec_objective. cbn [Nmul Nsub Nlit R_ops].
    replace ((x0 - 2) ^ 2)%R with ((x0 - 2) * (x0 - 2))%R by ring.
    reflexivity.
  - rewrite eval_f_defined. reflexivity.
  - assert (S : (z - 2) ^ 2 = (z - 2) * (z - 2)) by ring.
    assert (Q : (z - 2) * (z - 2) < 2 ^ 53) by lia.
    assert (B : Z.abs (z - 2) < 2 ^ 53) by nia.
    assert (Bz : Z.abs z < 2 ^ 53) by nia.
    split; [| split; [| split]].
    + rewrite eval_f_defined. cbn [Nmul Nsub Nlit binary64_ops].
      rewrite (sub_int z 2 Bz ltac:(cbn; lia) B).
      rewrite (sqr_int (z - 2) Q), S. reflexivity.
    + apply denotes_of_Z. exact Bz.
    + apply denotes_of_Z. rewrite S. nia.
    + unfold spec_objective. rewrite S, mult_IZR, minus_IZR. ring.
Qed.

Lemma eval_f_returns_objective_witness :
  (94906267 - 2) ^ 2 < 2 ^ 53
  /\ eval_f 1 (Array [Binary64.of_Z 94906267]) true Binary64Literals.zero
       Build_MinimalNLP
     = Some ((true, Binary64.of_Z ((94906267 - 2) ^ 2)), Build_MinimalNLP).
Proof.
  split; [reflexivity |].
  destruct eval_f_returns_objective as (_ & _ & I).
  apply (I Build_MinimalNLP 1 94906267 [] true Binary64Literals.zero).
  reflexivity.
Defined.

(** The claim as it was stated fails on doubles: at the iterate 94906269.0
    the value [eval_f] leaves is 9007199515875288, while (x[0]-2)^2 is
    9007199515875289, which no double holds. *)
Lemma eval_f_rounds_at_94906269 :
  Binary64Literals.denotes (Binary64.of_Z 94906269) 94906269 = true
  /\ Binary64.valid (Binary64.of_Z 94906269) = true
  /\ exists v : Binary64.binary64,
       eval_f 1 (Array [Binary64.of_Z 94906269]) true Binary64Literals.zero
         Build_MinimalNLP
       = Some ((true, v), Build_MinimalNLP)
       /\ Binary64Literals.denotes v 9007199515875288 = true
       /\ Binary64Literals.denotes v ((94906269 - 2) ^ 2) = false
       /\ (94906269 - 2) ^ 2 = 9007199515875289.
Proof.
  split; [vm_compute; reflexivity |].
  split; [vm_compute; reflexivity |].
  eexists. split; [apply eval_f_defined |].
  split; [vm_compute; reflexivity |].
  split; [vm_compute; reflexivity | reflexivity].
Qed.

(** C2 (amended).  [eval_grad_f] reports success for every iterate and
    returns a vector of length 1.  In exact arithmetic its entry is
    2*(x[0]-2), the derivative at [x[0]] of the function [eval_f]
    computes, and [eval_f] computes that same function whatever its other
    arguments are.  On doubles the entry is 2.0 times the rounded
    difference [x[0] - 2.0], and it is exactly that derivative at every
    integer iterate with |x[0]-2| < 2^52. *)
Theorem eval_grad_f_is_derivative :
  (forall this n (x0 : R) new_x g0,
      exists g : R,
        eval_grad_f n (Array [x0]) new_x (Array [g0]) this
        = Some ((true, Array [g]), this)
        /\ g = (2 * (x0 - 2))%R
        /\ derivable_pt_lim objective_of_eval_f x0 g)
  /\
  (forall this n (t : R) new_x old,
      eval_f n (Array [t]) new_x old this
      = Some ((true, objective_of_eval_f t), this))
  /\
  (forall this n (x0 : Binary64.binary64) new_x g0,
      eval_grad_f n (Array [x0]) new_x (Array [g0]) this
      = Some ((true,
               Array [Binary64.mul Binary64Literals.two
                        (Binary64.sub x0 Binary64Literals.two)]),
              this))
  /\
  (forall this n (z : Z) new_x g0,
      Z.abs (z - 2) < 2 ^ 52 ->
      eval_grad_f n (Array [Binary64.of_Z z]) new_x (Array [g0]) this
      = Some ((true, Array [Binary64.of_Z (2 * (z - 2))]), this)
      /\ Binary64Literals.denotes (Binary64.of_Z z) z = true
      /\ Binary64Literals.denotes (Binary64.of_Z (2 * (z - 2)))
           (2 * (z - 2)) = true
      /\ derivable_pt_lim objective_of_eval_f (IZR z)
           (IZR (2 * (z - 2)))).
Proof.
  split; [| split; [| split]]; intros.
  - exists (2 * (x0 - 2))%R. split; [reflexivity | split; [reflexivity |]].
    apply objective_derivative.
  - reflexivity.
  - rewrite eval_grad_f_defined. reflexivity.
  - assert (P : 2 ^ 53 = 2 * 2 ^ 52) by reflexivity.
    assert (Bz : Z.abs z < 2 ^ 53) by lia.
    split; [| split; [| split]].
    + rewrite eval_grad_f_defined. cbn [Nmul Nsub Nlit binary64_ops].
      rewrite (sub_int z 2 Bz ltac:(cbn; lia) ltac:(lia)).
      change (Binary64.of_Z 2) with Binary64Literals.two.
      rewrite (two_mul_int (z - 2) H). reflexivity.
    + apply denotes_of_Z. exact Bz.
    + apply denotes_of_Z. lia.
    + apply derivable_pt_lim_value with (l := (2 * (IZR z - 2))%R).
      * rewrite mult_IZR, minus_IZR. reflexivity.
      * apply objective_derivative.
Qed.

Lemma eval_grad_f_is_derivative_witness :
  Z.abs (5 - 2) < 2 ^ 52
  /\ eval_grad_f 1 (Array [Binary64.of_Z 5]) true
       (Array [Binary64Literals.zero]) Build_MinimalNLP
     = Some ((true, Array [Binary64.of_Z (2 * (5 - 2))]), Build_MinimalNLP).
Proof.
  split; [reflexivity |].
  destruct eval_grad_f_is_derivative as (_ & _ & _ & I).
  apply (I Build_MinimalNLP 1 5 true Binary64Literals.zero).
  reflexivity.
Defined.

(** The claim as it was stated fails on doubles: at the iterate 2^54 + 4
    the difference x[0] - 2.0 is rounded to 2^54, so the entry
    [eval_grad_f] writes is 2^55, while 2*(x[0]-2) is 2^55 + 4. *)
Lemma eval_grad_f_rounds_at_2p54_plus_4 :
  Binary64Literals.denotes (Binary64.of_Z (2 ^ 54 + 4)) (2 ^ 54 + 4) = true
  /\ Binary64.valid (Binary64.of_Z (2 ^ 54 + 4)) = true
  /\ exists g : Binary64.binary64,
       eval_grad_f 1 (Array [Binary64.of_Z (2 ^ 54 + 4)]) true
         (Array [Binary64Literals.zero]) Build_MinimalNLP
       = Some ((true, Array [g]), Build_MinimalNLP)
       /\ Binary64Literals.denotes g (2 ^ 55) = true
       /\ Binary64Literals.denotes g (2 * (2 ^ 54 + 4 - 2)) = false
       /\ 2 * (2 ^ 54 + 4 - 2) = 2 ^ 55 + 4.
Proof.
  split; [vm_compute; reflexivity |].
  split; [vm_compute; reflexivity |].
  eexists. split; [apply eval_grad_f_defined |].
  split; [vm_compute; reflexivity |].
  split; [vm_compute; reflexivity | reflexivity].
Qed.

(** C3.  In values mode (non-null [values]) [eval_h] reports success and
    writes the single value [obj_factor * 2], for every iterate, every
    [obj_factor], every [m] and [lambda]; the index buffers are left
    alone.  In exact arithmetic 2 is the second derivative of the function
    [eval_f] computes, at every point, so for [obj_factor = 1] the value
    written is that second derivative.  In double arithmetic the value for
    [obj_factor = 1.0] is the double 2.0. *)
Theorem eval_h_values_second_derivative :
  (forall this n x new_x (obj_factor : R) m lambda new_lambda nele_hess
          iRow jCol v0 (x0 : R),
      exists d2 : R,
        eval_h n x new_x obj_factor m lambda new_lambda nele_hess iRow jCol
          (Array [v0]) this
        = Some ((true, {| iRow := iRow; jCol := jCol;
                          values := Array [(obj_factor * d2)%R] |}), this)
        /\ d2 = 2%R
        /\ second_derivative_at objective_of_eval_f x0 d2)
  /\
  (forall this n x new_x lambda new_lambda nele_hess iRow jCol v0 (x0 : R),
      exists v : R,
        eval_h n x new_x 1%R 0 lambda new_lambda nele_hess iRow jCol
          (Array [v0]) this
        = Some ((true, {| iRow := iRow; jCol := jCol; values := Array [v] |}),
                this)
        /\ second_derivative_at objective_of_eval_f x0 v)
  /\
  (forall this n x new_x (obj_factor : Binary64.binary64) m lambda
          new_lambda nele_hess iRow jCol v0,
      eval_h n x new_x obj_factor m lambda new_lambda nele_hess iRow jCol
        (Array [v0]) this
      = Some ((true,
               {| iRow := iRow; jCol := jCol;
                  values := Array [Binary64.mul obj_factor
                                     Binary64Literals.two] |}), this))
  /\
  (forall this n x new_x m lambda new_lambda nele_hess iRow jCol v0,
      eval_h n x new_x Binary64Literals.one m lambda new_lambda nele_hess
        iRow jCol (Array [v0]) this
      = Some ((true,
               {| iRow := iRow; jCol := jCol;
                  values := Array [Binary64Literals.two] |}), this)).
Proof.
  split; [| split; [| split]]; intros.
  - exists 2%R. split; [reflexivity | split; [reflexivity |]].
    apply objective_second_derivative.
  - exists 2%R. split.
    + rewrite eval_h_values_defined. cbn [Nmul Nlit R_ops].
      replace (1 * 2)%R with 2%R by ring. reflexivity.
    + apply objective_second_derivative.
  - rewrite eval_h_values_defined. reflexivity.
  - rewrite eval_h_values_defined. reflexivity.
Qed.

(** on every integer iterate of the grid the double results are the exact
    values of the real formulas *)
Lemma binary64_exact_on_integer_grid :
  forallb exact_at integer_grid = true.
Proof. vm_compute. reflexivity. Qed.

(** the objective and its derivatives on doubles, at the starting point *)
Example eval_at_five :
  eval_f 1 (Array [Binary64Literals.five]) true Binary64Literals.zero
    Build_MinimalNLP
  = Some ((true, Binary64Literals.nine), Build_MinimalNLP)
  /\
  eval_grad_f 1 (Array [Binary64Literals.five]) true
    (Array [Binary64Literals.zero]) Build_MinimalNLP
  = Some ((true, Array [Binary64Literals.six]), Build_MinimalNLP).
Proof. split; vm_compute; reflexivity. Qed.

(** ** Calls in sequence *)

Section Calls.
Context {Number : Type} `{NumberOps Number}.

Lemma has_cell0_inv {A} (p : ptr A) :
  has_cell0 p = true -> exists a rest, p = Array (a :: rest).
Proof.
  destruct p as [| [| a rest]]; cbn; try discriminate.
  intros _. exists a, rest. reflexivity.
Qed.

Lemma perform_in_bounds (c : call) (this : MinimalNLP) :
  in_bounds c = true -> perform c this = Some (true, this).
Proof.
  destruct c; cbn [in_bounds perform]; intro W;
    try reflexivity.
  - apply andb_prop in W. destruct W as [Wl Wu].
    apply has_cell0_inv in Wl, Wu.
    destruct Wl as (? & ? & ->), Wu as (? & ? & ->). reflexivity.
  - destruct init_x; [| reflexivity].
    apply has_cell0_inv in W. destruct W as (? & ? & ->). reflexivity.
  - apply has_cell0_inv in W. destruct W as (? & ? & ->). reflexivity.
  - apply andb_prop in W. destruct W as [Wx Wg].
    apply has_cell0_inv in Wx, Wg.
    destruct Wx as (? & ? & ->), Wg as (? & ? & ->). reflexivity.
  - destruct values0 as [| cells]; cbn [is_null] in W.
    + apply andb_prop in W. destruct W as [Wr Wc].
      apply has_cell0_inv in Wr, Wc.
      destruct Wr as (? & ? & ->), Wc as (? & ? & ->). reflexivity.
    + apply has_cell0_inv in W. destruct W as (? & ? & E).
      rewrite E. reflexivity.
Qed.

Lemma perform_out_of_bounds (c : call) (this : MinimalNLP) :
  in_bounds c = false -> perform c this = None.
Proof.
  destruct c; cbn [in_bounds perform]; intro W; try discriminate.
  - destruct x_l0 as [| [| ? ?]]; [reflexivity | reflexivity |].
    destruct x_u0 as [| [| ? ?]]; [reflexivity | reflexivity |].
    discriminate.
  - destruct init_x; [| discriminate].
    destruct x as [| [| ? ?]]; [reflexivity | reflexivity | discriminate].
  - destruct x as [| [| ? ?]]; [reflexivity | reflexivity | discriminate].
  - destruct x as [| [| ? ?]]; [reflexivity | reflexivity |].
    destruct grad_f as [| [| ? ?]]; [reflexivity | reflexivity |].
    discriminate.
  - destruct values0 as [| cells]; cbn [is_null] in W.
    + destruct iRow0 as [| [| ? ?]]; [reflexivity | reflexivity |].
      destruct jCol0 as [| [| ? ?]]; [reflexivity | reflexivity |].
      discriminate.
    + destruct cells; [reflexivity | discriminate].
Qed.

Lemma perform_result (c : call) (this this' : MinimalNLP) (b : bool) :
  perform c this = Some (b, this') ->
  b = true /\ this' = this /\ in_bounds c = true.
Proof.
  intro P. destruct (in_bounds c) eqn:W.
  - rewrite (perform_in_bounds c this W) in P.
    injection P as <- <-. repeat split.
  - rewrite (perform_out_of_bounds c this W) in P. discriminate.
Qed.

Lemma run_in_bounds (history : list call) (this : MinimalNLP) :
  forallb in_bounds history = true ->
  run history this
  = Some (repeat true (List.length history), this).
Proof.
  induction history as [| c later IH]; cbn [forallb run]; intro W.
  - reflexivity.
  - apply andb_prop in W. destruct W as [Wc Wl].
    unfold bind. rewrite (perform_in_bounds c this Wc).
    rewrite (IH Wl). reflexivity.
Qed.

Lemma run_result (history : list call) (this this' : MinimalNLP)
    (outs : list bool) :
  run history this = Some (outs, this') ->
  this' = this /\ Forall (fun b => b = true) outs
  /\ List.length outs = List.length history.
Proof.
  revert outs. induction history as [| c later IH]; cbn [run]; intros outs R.
  - injection R as <- <-. repeat split. constructor.
  - unfold bind in R.
    destruct (perform c this) as [[b this1] |] eqn:P; [| discriminate].
    apply perform_result in P. destruct P as (-> & -> & _).
    destruct (run later this) as [[bs this2] |] eqn:Q; [| discriminate].
    cbn in R. injection R as <- <-.
    destruct (IH bs eq_refl) as (-> & F & L).
    repeat split; [constructor; [reflexivity | exact F] |].
    cbn. rewrite L. reflexivity.
Qed.

End Calls.

(** ** Dimensions, bounds, starting point *)

(** C4.  [get_nlp_info] reports n=1, m=0, nnz_jac_g=0, nnz_h_lag=1 and
    0-based indices.  On index buffers of the reported size nnz_h_lag, the
    structure call of [eval_h] (null [values]) fills them with exactly one
    pair, (0, 0), which lies in [0,n) x [0,n); on larger buffers it writes
    cell 0 only.  [eval_jac_g] writes no cell, so index buffers of the
    reported size nnz_jac_g hold no pair. *)
Theorem nlp_info_consistent_with_callbacks :
  forall (Number : Type) (ops : NumberOps Number) (this : MinimalNLP)
         (old : nlp_info),
  exists info : nlp_info,
    get_nlp_info old this = Some ((true, info), this)
    /\ info = {| info_n := 1; info_m := 0; info_nnz_jac_g := 0;
                 info_nnz_h_lag := 1; info_index_style := C_STYLE |}
    /\ (forall n (x : ptr Number) new_x obj_factor m lambda new_lambda
               iRow jCol,
           has_length iRow (info_nnz_h_lag info) ->
           has_length jCol (info_nnz_h_lag info) ->
           exists rows cols : list Index,
             eval_h n x new_x obj_factor m lambda new_lambda
               (info_nnz_h_lag info) iRow jCol nullptr this
             = Some ((true, {| iRow := Array rows; jCol := Array cols;
                               values := nullptr |}), this)
             /\ rows = [0] /\ cols = [0]
             /\ Z.of_nat (List.length rows) = info_nnz_h_lag info
             /\ Z.of_nat (List.length cols) = info_nnz_h_lag info
             /\ Forall (fun r => 0 <= r < info_n info) rows
             /\ Forall (fun c => 0 <= c < info_n info) cols)
    /\ (forall n (x : ptr Number) new_x obj_factor m lambda new_lambda
               nele_hess r0 rrest c0 crest,
           eval_h n x new_x obj_factor m lambda new_lambda nele_hess
             (Array (r0 :: rrest)) (Array (c0 :: crest)) nullptr this
           = Some ((true, {| iRow := Array (0 :: rrest);
                             jCol := Array (0 :: crest);
                             values := nullptr |}), this))
    /\ (forall n (x : ptr Number) new_x m nele_jac iRow jCol values,
           eval_jac_g n x new_x m nele_jac iRow jCol values this
           = Some ((true, {| iRow := iRow; jCol := jCol;
                             values := values |}), this))
    /\ (forall iRow jCol : ptr Index,
           has_length iRow (info_nnz_jac_g info) ->
           has_length jCol (info_nnz_jac_g info) ->
           iRow = Array [] /\ jCol = Array []).
Proof.
  intros Number ops this old. eexists. split; [reflexivity |].
  split; [reflexivity |]. cbn [info_n info_nnz_h_lag info_nnz_jac_g].
  split; [| split; [| split]].
  - intros n x new_x obj_factor m lambda new_lambda iRow jCol Hr Hc.
    destruct iRow as [| [| r0 [| r1 rrest]]]; cbn in Hr;
      try contradiction; try lia.
    destruct jCol as [| [| c0 [| c1 crest]]]; cbn in Hc;
      try contradiction; try lia.
    exists [0], [0]. rewrite eval_h_structure_defined.
    do 5 (split; [reflexivity |]).
    split; constructor; (lia || constructor).
  - intros. apply eval_h_structure_defined.
  - reflexivity.
  - intros iRow jCol Hr Hc.
    destruct iRow as [| [| r0 rrest]]; cbn in Hr; try contradiction;
      try lia.
    destruct jCol as [| [| c0 crest]]; cbn in Hc; try contradiction;
      try lia.
    split; reflexivity.
Qed.

Lemma nlp_info_consistent_with_callbacks_witness :
  has_length (Array [7]) 1 /\ has_length (Array [9]) 1 /\
  exists rows cols : list Index,
    eval_h 1 (@nullptr Binary64.binary64) true Binary64Literals.one 0
      nullptr true 1 (Array [7]) (Array [9]) nullptr Build_MinimalNLP
    = Some ((true, {| iRow := Array rows; jCol := Array cols;
                      values := nullptr |}), Build_MinimalNLP)
    /\ rows = [0] /\ cols = [0].
Proof.
  split; [reflexivity | split; [reflexivity |]].
  destruct (nlp_info_consistent_with_callbacks binary64_ops Build_MinimalNLP
              (Build_nlp_info 0 0 0 0 FORTRAN_STYLE))
    as (info & _ & E & S & _).
  rewrite E in S. cbn [info_nnz_h_lag info_n] in S.
  destruct (S 1 (@nullptr Binary64.binary64) true Binary64Literals.one 0
              nullptr true (Array [7]) (Array [9]) eq_refl eq_refl)
    as (rows & cols & R & Er & Ec & _).
  exists rows, cols. split; [exact R | split; assumption].
Defined.

(** C5.  On bound arrays of length n = 1, [get_bounds_info] reports success
    and writes x_l[0] = 0.0 and x_u[0] = 1e19; the constraint bound
    pointers are not written.  The double 1e19 is exactly 10^19, and the
    lower bound is below the upper bound, in double and in exact
    arithmetic. *)
Theorem get_bounds_info_bounds :
  (forall (Number : Type) (ops : NumberOps Number) this n l0 u0 m g_l g_u,
      get_bounds_info n (Array [l0]) (Array [u0]) m g_l g_u this
      = Some ((true, {| x_l := Array [Nlit 0]; x_u := Array [Nlit (10 ^ 19)];
                        g_l := g_l; g_u := g_u |}), this))
  /\ @Nlit _ binary64_ops 0 = Binary64Literals.zero
  /\ @Nlit _ binary64_ops (10 ^ 19) = Binary64Literals.ten_to_19
  /\ Binary64Literals.denotes Binary64Literals.ten_to_19 (10 ^ 19) = true
  /\ Binary64.valid Binary64Literals.ten_to_19 = true
  /\ Binary64.leb (Nlit 0) (Nlit (10 ^ 19)) = true
  /\ @Nlit _ R_ops 0 = 0%R
  /\ @Nlit _ R_ops (10 ^ 19) = 1e19%R
  /\ (@Nlit _ R_ops 0 <= @Nlit _ R_ops (10 ^ 19))%R.
Proof.
  split; [intros; reflexivity |].
  do 5 (split; [vm_compute; reflexivity |]).
  split; [reflexivity |].
  assert (E : @Nlit _ R_ops (10 ^ 19) = 1e19%R).
  { cbn [Nlit R_ops]. lra. }
  split; [exact E |].
  rewrite E. cbn [Nlit R_ops]. lra.
Qed.

(** C6.  [get_starting_point] reports success whatever the flags are.  With
    [init_x] true it writes x[0] = 5.0 and nothing else; with [init_x]
    false every buffer, the iterate included, comes back as it was
    supplied (even a null or empty one). *)
Theorem get_starting_point_init_x :
  (forall (Number : Type) (ops : NumberOps Number) this n x0 rest init_z
          z_L z_U m init_lambda lambda,
      get_starting_point n true (Array (x0 :: rest)) init_z z_L z_U m
        init_lambda lambda this
      = Some ((true, {| sp_x := Array (Nlit 5 :: rest); sp_z_L := z_L;
                        sp_z_U := z_U; sp_lambda := lambda |}), this))
  /\
  (forall (Number : Type) (ops : NumberOps Number) this n x init_z
          z_L z_U m init_lambda lambda,
      get_starting_point n false x init_z z_L z_U m init_lambda lambda this
      = Some ((true, {| sp_x := x; sp_z_L := z_L; sp_z_U := z_U;
                        sp_lambda := lambda |}), this))
  /\ @Nlit _ binary64_ops 5 = Binary64Literals.five
  /\ Binary64Literals.denotes Binary64Literals.five 5 = true
  /\ @Nlit _ R_ops 5 = 5%R.
Proof.
  split; [intros; reflexivity |].
  split; [intros; reflexivity |].
  split; [vm_compute; reflexivity |].
  split; [vm_compute; reflexivity |].
  reflexivity.
Qed.

(** ** Fixed structure, purity, failure indicator *)

(** C7.  After any history of callback invocations on the object, the two
    modes of [eval_h] use one fixed pattern, the single pair (0, 0) at
    position 0.  A structure call (null [values]) reports success and
    writes row 0 and column 0 into cell 0 of the index buffers and into no
    other cell, whatever the iterate, the weights, the dimensions and the
    previous content of the buffers are.  A values call (non-null
    [values]) reports success, writes the value [obj_factor * 2] that
    belongs to that pair into cell 0 of [values] and into no other cell,
    and leaves the index buffers as they are, whatever they hold (null
    included).  The object is as it was before the history. *)
Theorem hessian_structure_fixed :
  forall (Number : Type) (ops : NumberOps Number) (history : list call)
         (this this' : MinimalNLP) (outs : list bool),
    run history this = Some (outs, this') ->
    this' = this
    /\ (forall n (x : ptr Number) new_x obj_factor m lambda new_lambda
               nele_hess (r0 : Index) rrest (c0 : Index) crest,
           eval_h n x new_x obj_factor m lambda new_lambda nele_hess
             (Array (r0 :: rrest)) (Array (c0 :: crest)) nullptr this'
           = Some ((true, {| iRow := Array (0 :: rrest);
                             jCol := Array (0 :: crest);
                             values := nullptr |}), this'))
    /\ (forall n (x : ptr Number) new_x obj_factor m lambda new_lambda
               nele_hess (rows cols : ptr Index) (v0 : Number) vrest,
           eval_h n x new_x obj_factor m lambda new_lambda nele_hess
             rows cols (Array (v0 :: vrest)) this'
           = Some ((true, {| iRow := rows; jCol := cols;
                             values := Array (Nmul obj_factor (Nlit 2)
                                              :: vrest) |}), this'))
    /\ (forall n (x : ptr Number) new_x obj_factor m lambda new_lambda
               nele_hess (r0 c0 : Index),
           eval_h n x new_x obj_factor m lambda new_lambda nele_hess
             (Array [r0]) (Array [c0]) nullptr this'
           = Some ((true, {| iRow := Array [0]; jCol := Array [0];
                             values := nullptr |}), this')).
Proof.
  intros Number ops history this this' outs R.
  apply run_result in R. destruct R as (-> & _ & _).
  split; [reflexivity |]. split; [| split].
  - intros. apply eval_h_structure_defined.
  - intros. apply eval_h_values_defined.
  - intros. apply eval_h_structure_defined.
Qed.

Lemma hessian_structure_fixed_witness :
  run [ Call_eval_h 1 nullptr true Binary64Literals.one 0 nullptr true 1
          (Array [8]) (Array [9]) nullptr;
        Call_eval_f 1 (Array [Binary64Literals.five]) true
          Binary64Literals.zero;
        Call_eval_h 1 (Array [Binary64Literals.five]) true
          Binary64Literals.one 0 nullptr true 1 nullptr nullptr
          (Array [Binary64Literals.zero]) ] Build_MinimalNLP
  = Some ([true; true; true], Build_MinimalNLP)
  /\
  eval_h 1 (Array [Binary64Literals.two]) false Binary64Literals.one 0
    nullptr false 1 (Array [3; 7]) (Array [4; 9]) nullptr Build_MinimalNLP
  = Some ((true, {| iRow := Array [0; 7]; jCol := Array [0; 9];
                    values := @nullptr Binary64.binary64 |}),
          Build_MinimalNLP)
  /\
  eval_h 1 (Array [Binary64Literals.two]) false Binary64Literals.one 0
    nullptr false 1 nullptr (Array [4; 9])
    (Array [Binary64Literals.zero; Binary64Literals.five]) Build_MinimalNLP
  = Some ((true, {| iRow := nullptr; jCol := Array [4; 9];
                    values := Array [Binary64Literals.two;
                                     Binary64Literals.five] |}),
          Build_MinimalNLP).
Proof.
  split; [reflexivity |].
  destruct (@hessian_structure_fixed
              Binary64.binary64 binary64_ops
              [ Call_eval_h 1 nullptr true Binary64Literals.one 0 nullptr
                  true 1 (Array [8]) (Array [9]) nullptr;
                Call_eval_f 1 (Array [Binary64Literals.five]) true
                  Binary64Literals.zero;
                Call_eval_h 1 (Array [Binary64Literals.five]) true
                  Binary64Literals.one 0 nullptr true 1 nullptr nullptr
                  (Array [Binary64Literals.zero]) ]
              Build_MinimalNLP Build_MinimalNLP [true; true; true] eq_refl)
    as (_ & S & V & _).
  split.
  - apply S.
  - rewrite V. vm_compute. reflexivity.
Defined.

(** C8.  After any history of callback invocations, what [eval_f] and
    [eval_grad_f] return for an iterate [x] is what they return for [x] on
    the object before the history, whatever [n], [new_x] and the previous
    content of the output cell are; both leave the object as it was, and
    [eval_grad_f] changes no cell of [grad_f] other than cell 0. *)
Theorem eval_f_eval_grad_f_pure :
  forall (Number : Type) (ops : NumberOps Number) (history : list call)
         (this this' : MinimalNLP) (outs : list bool)
         n n' (x : ptr Number) new_x new_x' old old' g0 g0' grest,
    run history this = Some (outs, this') ->
    eval_f n x new_x old this' = eval_f n' x new_x' old' this
    /\ eval_grad_f n x new_x (Array (g0 :: grest)) this'
       = eval_grad_f n' x new_x' (Array (g0' :: grest)) this
    /\ (forall r this'',
           eval_f n x new_x old this' = Some (r, this'') -> this'' = this')
    /\ (forall b grad_f' this'',
           eval_grad_f n x new_x (Array (g0 :: grest)) this'
           = Some ((b, grad_f'), this'') ->
           this'' = this' /\ tail_cells grad_f' = grest).
Proof.
  intros Number ops history this this' outs n n' x new_x new_x' old old'
    g0 g0' grest R.
  apply run_result in R. destruct R as (-> & _ & _).
  split; [reflexivity |].
  split; [destruct x as [| [| x0 rest]]; reflexivity |].
  split.
  - intros r this'' E. apply MinimalNLP_unique.
  - intros b grad_f' this'' E.
    destruct x as [| [| x0 rest]]; try discriminate.
    rewrite eval_grad_f_defined in E. injection E as _ <- <-.
    split; reflexivity.
Qed.

Lemma eval_f_eval_grad_f_pure_witness :
  run [ Call_eval_grad_f 1 (Array [Binary64Literals.two]) true
          (Array [Binary64Literals.zero]);
        Call_eval_f 1 (Array [Binary64Literals.five]) true
          Binary64Literals.zero ] Build_MinimalNLP
  = Some ([true; true], Build_MinimalNLP)
  /\
  eval_f 1 (Array [Binary64Literals.five]) true Binary64Literals.zero
    Build_MinimalNLP
  = eval_f 1 (Array [Binary64Literals.five]) false Binary64Literals.nine
      Build_MinimalNLP.
Proof.
  split; [reflexivity |].
  apply (eval_f_eval_grad_f_pure
           binary64_ops
           [ Call_eval_grad_f 1 (Array [Binary64Literals.two]) true
               (Array [Binary64Literals.zero]);
             Call_eval_f 1 (Array [Binary64Literals.five]) true
               Binary64Literals.zero ]
           Build_MinimalNLP (outs := [true; true])
           1 1 (Array [Binary64Literals.five]) true false
           Binary64Literals.zero Binary64Literals.nine
           Binary64Literals.zero Binary64Literals.zero []).
  reflexivity.
Defined.

(** C10.  No callback ever returns false: an invocation that stays inside
    its buffers returns true and leaves the object alone, one that does not
    has no defined result, and so a whole history of invocations returns
    true at every step. *)
Theorem callbacks_always_return_true :
  forall (Number : Type) (ops : NumberOps Number) (c : call)
         (history : list call) (this : MinimalNLP),
    (in_bounds c = true -> perform c this = Some (true, this))
    /\ (forall b this', perform c this = Some (b, this') -> b = true)
    /\ (forallb in_bounds history = true ->
        run history this
        = Some (repeat true (List.length history), this))
    /\ (forall outs this',
           run history this = Some (outs, this') ->
           Forall (fun b => b = true) outs).
Proof.
  intros Number ops c history this. split; [apply perform_in_bounds |].
  split.
  - intros b this' P. apply perform_result in P. tauto.
  - split; [apply run_in_bounds |].
    intros outs this' R. apply run_result in R. tauto.
Qed.

Lemma callbacks_always_return_true_witness :
  in_bounds (Call_eval_grad_f 1 (Array [Binary64Literals.five]) true
               (Array [Binary64Literals.zero])) = true
  /\
  perform (Call_eval_grad_f 1 (Array [Binary64Literals.five]) true
             (Array [Binary64Literals.zero])) Build_MinimalNLP
  = Some (true, Build_MinimalNLP).
Proof.
  split; [reflexivity |].
  apply (callbacks_always_return_true
           binary64_ops
           (Call_eval_grad_f 1 (Array [Binary64Literals.five]) true
              (Array [Binary64Literals.zero]))
           [] Build_MinimalNLP).
  reflexivity.
Defined.

(** ** The exit code of [main] *)

Lemma status_eqb_eq (a b : ApplicationReturnStatus) :
  status_eqb a b = true <-> a = b.
Proof.
  split.
  - destruct a, b; intro E; try reflexivity; discriminate E.
  - intros ->. apply Z.eqb_refl.
Qed.

Lemma status_eqb_neq (a b : ApplicationReturnStatus) :
  status_eqb a b = false <-> a <> b.
Proof.
  rewrite <- status_eqb_eq. destruct (status_eqb a b); split;
    congruence.
Qed.

Lemma main_initialize_failed (app : IpoptApplication) :
  Initialize_status app <> Solve_Succeeded ->
  fst (main app) = 1 /\ solve_attempted (snd (main app)) = false.
Proof.
  intro N. apply status_eqb_neq in N. unfold main. rewrite N.
  split; reflexivity.
Qed.

Lemma main_initialized (app : IpoptApplication) :
  Initialize_status app = Solve_Succeeded ->
  solve_attempted (snd (main app)) = true
  /\ fst (main app)
     = if status_eqb (OptimizeTNLP_status app Build_MinimalNLP)
            Solve_Succeeded
       then 0 else 1.
Proof.
  intro E. unfold main. rewrite E. cbn [status_eqb status_value Z.eqb negb].
  destruct (status_eqb (OptimizeTNLP_status app Build_MinimalNLP)
              Solve_Succeeded); split; reflexivity.
Qed.

(** C9.  [main] returns 0 exactly when [Initialize] and then the solve
    both answer [Solve_Succeeded]; otherwise it returns 1.  When
    [Initialize] answers anything else, [main] returns 1 and never calls
    [OptimizeTNLP]; when it answers [Solve_Succeeded], [OptimizeTNLP] is
    called and [main] returns 0 if and only if the solve answers
    [Solve_Succeeded], and 1 for every other status. *)
Theorem main_exit_code :
  forall app : IpoptApplication,
    (fst (main app) = 0 \/ fst (main app) = 1)
    /\ (fst (main app) = 0 <->
        Initialize_status app = Solve_Succeeded
        /\ OptimizeTNLP_status app Build_MinimalNLP = Solve_Succeeded)
    /\ (Initialize_status app <> Solve_Succeeded ->
        fst (main app) = 1 /\ solve_attempted (snd (main app)) = false)
    /\ (Initialize_status app = Solve_Succeeded ->
        solve_attempted (snd (main app)) = true
        /\ (fst (main app) = 0 <->
            OptimizeTNLP_status app Build_MinimalNLP = Solve_Succeeded)
        /\ (OptimizeTNLP_status app Build_MinimalNLP <> Solve_Succeeded ->
            fst (main app) = 1)).
Proof.
  intro app.
  assert (I : Initialize_status app = Solve_Succeeded
              \/ Initialize_status app <> Solve_Succeeded).
  { destruct (status_eqb (Initialize_status app) Solve_Succeeded) eqn:E.
    - left. apply status_eqb_eq. exact E.
    - right. apply status_eqb_neq. exact E. }
  assert (S : Initialize_status app = Solve_Succeeded ->
              solve_attempted (snd (main app)) = true
              /\ (fst (main app) = 0 <->
                  OptimizeTNLP_status app Build_MinimalNLP = Solve_Succeeded)
              /\ (OptimizeTNLP_status app Build_MinimalNLP
                  <> Solve_Succeeded -> fst (main app) = 1)).
  { intro E. destruct (main_initialized app E) as [A X].
    split; [exact A |]. rewrite X.
    destruct (status_eqb (OptimizeTNLP_status app Build_MinimalNLP)
                Solve_Succeeded) eqn:O.
    - apply status_eqb_eq in O. split; [tauto | congruence].
    - apply status_eqb_neq in O. split; [| reflexivity].
      split; [discriminate | congruence]. }
  split; [| split; [| split]].
  - destruct I as [E | N].
    + destruct (main_initialized app E) as [_ X]. rewrite X.
      destruct (status_eqb _ _); [left | right]; reflexivity.
    + right. apply (main_initialize_failed app N).
  - destruct I as [E | N].
    + destruct (S E) as (_ & X & _). tauto.
    + destruct (main_initialize_failed app N) as [X _]. rewrite X.
      split; [discriminate | tauto].
  - apply main_initialize_failed.
  - exact S.
Qed.

Lemma main_exit_code_witness :
  (fst (main {| Initialize_status := Invalid_Option;
                OptimizeTNLP_status := fun _ => Solve_Succeeded |}) = 1
   /\ solve_attempted
        (snd (main {| Initialize_status := Invalid_Option;
                      OptimizeTNLP_status := fun _ => Solve_Succeeded |}))
      = false)
  /\ fst (main {| Initialize_status := Solve_Succeeded;
                  OptimizeTNLP_status := fun _ => Solve_Succeeded |}) = 0
  /\ fst (main {| Initialize_status := Solve_Succeeded;
                  OptimizeTNLP_status :=
                    fun _ => Solved_To_Acceptable_Level |}) = 1.
Proof.
  split; [| split].
  - destruct (main_exit_code
                {| Initialize_status := Invalid_Option;
                   OptimizeTNLP_status := fun _ => Solve_Succeeded |})
      as (_ & _ & F & _).
    apply F. discriminate.
  - destruct (main_exit_code
                {| Initialize_status := Solve_Succeeded;
                   OptimizeTNLP_status := fun _ => Solve_Succeeded |})
      as (_ & _ & _ & S).
    destruct (S eq_refl) as (_ & Z0 & _). apply Z0. reflexivity.
  - destruct (main_exit_code
                {| Initialize_status := Solve_Succeeded;
                   OptimizeTNLP_status :=
                     fun _ => Solved_To_Acceptable_Level |})
      as (_ & _ & _ & S).
    destruct (S eq_refl) as (_ & _ & N). apply N. discriminate.
Defined.

(** ** The callbacks on doubles: signs, infinities, NaN *)

Lemma binary_round_aux_sign (sx : bool) (mx ex : Z) (lx : location) :
  binary_round_aux Binary64.prec Binary64.emax sx mx ex lx = S754_nan
  \/ sign_of (binary_round_aux Binary64.prec Binary64.emax sx mx ex lx)
     = Some sx.
Proof.
  unfold binary_round_aux.
  destruct (shr_fexp Binary64.prec Binary64.emax mx ex lx) as [mrs1 e1].
  destruct (shr_fexp Binary64.prec Binary64.emax
              (round_nearest_even (shr_m mrs1) (loc_of_shr_record mrs1))
              e1 loc_Exact) as [mrs2 e2].
  destruct (shr_m mrs2) as [| p | p].
  - right. reflexivity.
  - right. destruct (e2 <=? Binary64.emax - Binary64.prec); reflexivity.
  - left. reflexivity.
Qed.

Lemma square_sign (d : Binary64.binary64) :
  Binary64.mul d d = S754_nan \/ sign_of (Binary64.mul d d) = Some false.
Proof.
  destruct d as [s | s | | s m e]; unfold Binary64.mul; cbn [SFmul sign_of].
  - right. rewrite xorb_nilpotent. reflexivity.
  - right. rewrite xorb_nilpotent. reflexivity.
  - left. reflexivity.
  - destruct (binary_round_aux_sign (xorb s s) (Z.pos (m * m)) (e + e)
                loc_Exact) as [E | E]; [left; exact E | right].
    rewrite E, xorb_nilpotent. reflexivity.
Qed.

Lemma sign_clear_above_zero (v : Binary64.binary64) :
  sign_of v = Some false ->
  Binary64.leb Binary64Literals.zero v = true.
Proof.
  destruct v as [s | s | | s m e]; cbn [sign_of]; intro E;
    try discriminate E; injection E as ->; reflexivity.
Qed.

(** X1.  On doubles the objective [eval_f] leaves is never negative and
    never -0.0: for every iterate, the infinities and NaN included, the
    value is NaN, or it has a clear sign bit and compares at least
    0.0. *)
Theorem eval_f_never_negative :
  forall this n (x0 : Binary64.binary64) rest new_x old,
  exists v : Binary64.binary64,
    eval_f n (Array (x0 :: rest)) new_x old this = Some ((true, v), this)
    /\ (v = S754_nan
        \/ (sign_of v = Some false
            /\ Binary64.leb Binary64Literals.zero v = true
            /\ v <> S754_zero true)).
Proof.
  intros. eexists. split; [apply eval_f_defined |].
  cbn [Nmul Nsub binary64_ops].
  destruct (square_sign (Binary64.sub x0 (Nlit 2))) as [E | S];
    [left; exact E | right].
  split; [exact S |]. split; [apply sign_clear_above_zero; exact S |].
  intro Z0. rewrite Z0 in S. discriminate S.
Qed.

Lemma sub_two_not_finite (x0 : Binary64.binary64) :
  is_finite x0 = false ->
  Binary64.sub x0 (Nlit 2) = x0.
Proof.
  destruct x0 as [s | s | | s m e]; cbn [is_finite]; intro E;
    try discriminate; reflexivity.
Qed.

(** X2.  The evaluation callbacks report success on an iterate that is not
    a finite double: for NaN or an infinity, [eval_f] and [eval_grad_f]
    return true and leave a value that is not finite either.  A finite
    iterate can do the same: at 1e200 the objective overflows to +inf and
    [eval_f] still returns true. *)
Theorem non_finite_values_reported_as_success :
  (forall this n (x0 : Binary64.binary64) new_x old g0,
      is_finite x0 = false ->
      exists v g : Binary64.binary64,
        eval_f n (Array [x0]) new_x old this = Some ((true, v), this)
        /\ is_finite v = false
        /\ eval_grad_f n (Array [x0]) new_x (Array [g0]) this
           = Some ((true, Array [g]), this)
        /\ is_finite g = false)
  /\
  (forall this n new_x old,
      is_finite (Binary64.of_Z (10 ^ 200)) = true
      /\ Binary64.valid (Binary64.of_Z (10 ^ 200)) = true
      /\ eval_f n (Array [Binary64.of_Z (10 ^ 200)]) new_x old this
         = Some ((true, S754_infinity false), this)).
Proof.
  split.
  - intros this n x0 new_x old g0 F. eexists. eexists.
    split; [apply eval_f_defined |].
    split; [| split; [apply eval_grad_f_defined |]];
      cbn [Nmul Nsub binary64_ops]; rewrite (sub_two_not_finite x0 F);
      destruct x0 as [s | s | | s m e]; try discriminate F; reflexivity.
  - intros this n new_x old.
    split; [vm_compute; reflexivity |].
    split; [vm_compute; reflexivity |].
    rewrite eval_f_defined. vm_compute. reflexivity.
Qed.

Lemma non_finite_values_reported_as_success_witness :
  is_finite (S754_infinity true) = false
  /\ exists v g : Binary64.binary64,
       eval_f 1 (Array [S754_infinity true]) true Binary64Literals.zero
         Build_MinimalNLP
       = Some ((true, v), Build_MinimalNLP)
       /\ is_finite v = false
       /\ eval_grad_f 1 (Array [S754_infinity true]) true
            (Array [Binary64Literals.zero]) Build_MinimalNLP
          = Some ((true, Array [g]), Build_MinimalNLP)
       /\ is_finite g = false.
Proof.
  split; [reflexivity |].
  destruct non_finite_values_reported_as_success as [A _].
  apply A. reflexivity.
Defined.

(** ** The callbacks together, in exact arithmetic *)

(** X3.  In exact arithmetic the three evaluation callbacks describe one
    quadratic: for every iterate [x0], step [d] and objective weight, the
    weighted objective at [x0 + d] is the weighted objective at [x0] plus
    the weighted gradient times [d] plus half the Hessian value times
    [d^2], with no remainder; and the Hessian value times the step from
    [x0] to 2 is minus the weighted gradient (the Newton step lands
    on 2). *)
Theorem quadratic_model_exact :
  forall this n new_x old g0 v0 (x0 d obj_factor : R) m lambda new_lambda
         nele_hess iRow jCol,
  exists f0 f1 g h : R,
    eval_f n (Array [x0]) new_x old this = Some ((true, f0), this)
    /\ eval_f n (Array [(x0 + d)%R]) new_x old this = Some ((true, f1), this)
    /\ eval_grad_f n (Array [x0]) new_x (Array [g0]) this
       = Some ((true, Array [g]), this)
    /\ eval_h n (Array [x0]) new_x obj_factor m lambda new_lambda nele_hess
         iRow jCol (Array [v0]) this
       = Some ((true, {| iRow := iRow; jCol := jCol; values := Array [h] |}),
               this)
    /\ (obj_factor * f1
        = obj_factor * f0 + obj_factor * g * d + h * d ^ 2 / 2)%R
    /\ (h * (2 - x0) = - (obj_factor * g))%R.
Proof.
  intros. do 4 eexists.
  split; [apply eval_f_defined |].
  split; [apply eval_f_defined |].
  split; [apply eval_grad_f_defined |].
  split; [apply eval_h_values_defined |].
  cbn [Nmul Nsub Nlit R_ops]. split; [field | ring].
Qed.

(** X4.  In exact arithmetic the point 2 is feasible and optimal: it lies
    between the bounds [get_bounds_info] writes; the objective [eval_f]
    leaves is never negative and is 0 exactly at the iterate 2; the
    gradient [eval_grad_f] leaves is 0 exactly at 2, negative below it and
    positive above it. *)
Theorem two_is_the_minimizer :
  forall this n new_x old g0 l0 u0 m g_l g_u (t : R),
  exists l u f g : R,
    get_bounds_info n (Array [l0]) (Array [u0]) m g_l g_u this
    = Some ((true, {| x_l := Array [l]; x_u := Array [u];
                      g_l := g_l; g_u := g_u |}), this)
    /\ eval_f n (Array [t]) new_x old this = Some ((true, f), this)
    /\ eval_grad_f n (Array [t]) new_x (Array [g0]) this
       = Some ((true, Array [g]), this)
    /\ (l <= 2 <= u)%R
    /\ (0 <= f)%R
    /\ (f = 0%R <-> t = 2%R)
    /\ (g = 0%R <-> t = 2%R)
    /\ ((t < 2)%R -> (g < 0)%R)
    /\ ((2 < t)%R -> (0 < g)%R).
Proof.
  intros. do 4 eexists.
  split; [reflexivity |].
  split; [apply eval_f_defined |].
  split; [apply eval_grad_f_defined |].
  cbn [Nmul Nsub Nlit R_ops].
  change (10 ^ 19) with 10000000000000000000.
  split; [split; lra |].
  split; [exact (Rle_0_sqr (t - 2)) |].
  split; [split; intro E;
          [destruct (Rmult_integral _ _ E); lra | subst t; ring] |].
  split; [split; intro E; [lra | subst t; ring] |].
  split; intro L; lra.
Qed.

Lemma two_is_the_minimizer_witness :
  exists f g : R,
    eval_f 1 (Array [2%R]) true 7%R Build_MinimalNLP
    = Some ((true, f), Build_MinimalNLP)
    /\ eval_grad_f 1 (Array [2%R]) true (Array [7%R]) Build_MinimalNLP
       = Some ((true, Array [g]), Build_MinimalNLP)
    /\ f = 0%R /\ g = 0%R.
Proof.
  destruct (two_is_the_minimizer Build_MinimalNLP 1 true 7%R 7%R 7%R 7%R 0
              nullptr nullptr 2%R)
    as (l & u & f & g & _ & Ef & Eg & _ & _ & Zf & Zg & _).
  exists f, g. split; [exact Ef |]. split; [exact Eg |].
  split; [apply Zf | apply Zg]; reflexivity.
Defined.

(** X5.  The starting point lies strictly inside the bounds: the value
    [get_starting_point] writes into x[0] is above the lower bound and
    below the upper bound [get_bounds_info] writes, as doubles and in
    exact arithmetic, whatever the buffers held before. *)
Theorem starting_point_strictly_inside_bounds :
  (forall this n (l0 u0 s0 : Binary64.binary64) m g_l g_u init_z z_L z_U
          init_lambda lambda,
      exists l u s : Binary64.binary64,
        get_bounds_info n (Array [l0]) (Array [u0]) m g_l g_u this
        = Some ((true, {| x_l := Array [l]; x_u := Array [u];
                          g_l := g_l; g_u := g_u |}), this)
        /\ get_starting_point n true (Array [s0]) init_z z_L z_U m
             init_lambda lambda this
           = Some ((true, {| sp_x := Array [s]; sp_z_L := z_L;
                             sp_z_U := z_U; sp_lambda := lambda |}), this)
        /\ SFltb l s = true /\ SFltb s u = true
        /\ is_finite l = true /\ is_finite s = true /\ is_finite u = true)
  /\
  (forall this n (l0 u0 s0 : R) m g_l g_u init_z z_L z_U init_lambda lambda,
      exists l u s : R,
        get_bounds_info n (Array [l0]) (Array [u0]) m g_l g_u this
        = Some ((true, {| x_l := Array [l]; x_u := Array [u];
                          g_l := g_l; g_u := g_u |}), this)
        /\ get_starting_point n true (Array [s0]) init_z z_L z_U m
             init_lambda lambda this
           = Some ((true, {| sp_x := Array [s]; sp_z_L := z_L;
                             sp_z_U := z_U; sp_lambda := lambda |}), this)
        /\ (l < s < u)%R).
Proof.
  split; intros; do 3 eexists.
  - split; [reflexivity |]. split; [reflexivity |].
    repeat (split; [vm_compute; reflexivity |]). vm_compute. reflexivity.
  - split; [reflexivity |]. split; [reflexivity |].
    cbn [Nlit R_ops]. change (10 ^ 19) with 10000000000000000000.
    split; lra.
Qed.

(** ** [finalize_solution] and undefined calls *)

(** X6.  [finalize_solution] is undefined exactly when [x] has no cell 0.
    Otherwise it leaves the object alone and its report shows two numbers,
    x[0] and then [obj_value], as they were handed over; the report is the
    same whatever the terminal status, the dimensions, the multipliers,
    the constraint values and the rest of [x] are. *)
Theorem finalize_solution_report :
  forall (Number SolverReturn IpoptData IpoptCalculatedQuantities : Type)
         (status status' : SolverReturn) (n n' : Index)
         (x x' z_L z_L' z_U z_U' : ptr Number) (m m' : Index)
         (g g' lambda lambda' : ptr Number) (obj_value : Number)
         (ip_data ip_data' : ptr IpoptData)
         (ip_cq ip_cq' : ptr IpoptCalculatedQuantities)
         (this : MinimalNLP),
    (finalize_solution status n x z_L z_U m g lambda obj_value ip_data ip_cq
       this = None <-> has_cell0 x = false)
    /\ (load0 x = load0 x' ->
        finalize_solution status n x z_L z_U m g lambda obj_value ip_data
          ip_cq this
        = finalize_solution status' n' x' z_L' z_U' m' g' lambda' obj_value
            ip_data' ip_cq' this)
    /\ (forall report this',
           finalize_solution status n x z_L z_U m g lambda obj_value ip_data
             ip_cq this = Some (report, this') ->
           this' = this
           /\ exists x0, load0 x = Some x0
                         /\ numbers_shown report = [x0; obj_value]).
Proof.
  intros. unfold finalize_solution, bind, access, ret.
  split; [| split].
  - destruct x as [| [| x0 rest]]; cbn [load0 has_cell0];
      split; intro E; try reflexivity; discriminate E.
  - intro E. rewrite E. reflexivity.
  - intros report this' E.
    destruct x as [| [| x0 rest]]; cbn [load0] in E; try discriminate E.
    injection E as <- <-. split; [reflexivity |].
    exists x0. split; reflexivity.
Qed.

Lemma finalize_solution_report_witness :
  load0 (Array [Binary64Literals.two])
  = load0 (Array [Binary64Literals.two; Binary64Literals.five])
  /\
  finalize_solution 0 1 (Array [Binary64Literals.two])
    nullptr nullptr 0 nullptr nullptr Binary64Literals.zero
    (@nullptr unit) (@nullptr unit) Build_MinimalNLP
  = finalize_solution 16 2
      (Array [Binary64Literals.two; Binary64Literals.five])
      (Array [Binary64Literals.one]) nullptr 3 nullptr nullptr
      Binary64Literals.zero (@nullptr unit) (@nullptr unit) Build_MinimalNLP.
Proof.
  split; [reflexivity |].
  apply (finalize_solution_report
           0 16 1 2
           (Array [Binary64Literals.two])
           (Array [Binary64Literals.two; Binary64Literals.five])
           nullptr (Array [Binary64Literals.one]) nullptr nullptr 0 3
           nullptr nullptr nullptr nullptr Binary64Literals.zero
           (@nullptr unit) (@nullptr unit) (@nullptr unit) (@nullptr unit)
           Build_MinimalNLP).
  reflexivity.
Defined.

Section Undefined.
Context {Number : Type} `{NumberOps Number}.

Lemma run_out_of_bounds (history : list call) (this : MinimalNLP) :
  forallb in_bounds history = false -> run history this = None.
Proof.
  induction history as [| c later IH]; cbn [forallb run]; intro W.
  - discriminate W.
  - unfold bind. destruct (in_bounds c) eqn:Wc.
    + rewrite (perform_in_bounds c this Wc). cbn [andb] in W.
      rewrite (IH W). reflexivity.
    + rewrite (perform_out_of_bounds c this Wc). reflexivity.
Qed.

End Undefined.

(** X7.  A callback invocation has no defined result exactly when a cell
    it reads or writes does not exist, and a sequence of invocations has
    none exactly when one of its invocations has none.  The dimension
    arguments do not protect a call: with n = 0 and empty arrays
    [get_bounds_info], [eval_f] and [eval_grad_f] still access cell 0. *)
Theorem undefined_exactly_out_of_bounds :
  forall (Number : Type) (ops : NumberOps Number) (c : call)
         (history : list call) (this : MinimalNLP) (new_x : bool)
         (old : Number),
    (perform c this = None <-> in_bounds c = false)
    /\ (run history this = None <-> existsb (fun c => negb (in_bounds c))
                                      history = true)
    /\ get_bounds_info 0 (Array []) (Array []) 0 (Array []) (Array []) this
       = None
    /\ eval_f 0 (Array []) new_x old this = None
    /\ eval_grad_f 0 (Array []) new_x (Array []) this = None.
Proof.
  intros Number ops c history this new_x old.
  split; [| split; [| repeat split]].
  - split; [| apply perform_out_of_bounds].
    intro E. destruct (in_bounds c) eqn:W; [| reflexivity].
    rewrite (perform_in_bounds c this W) in E. discriminate E.
  - assert (D : existsb (fun c => negb (in_bounds c)) history
                = negb (forallb in_bounds history)).
    { induction history as [| a later IH]; [reflexivity |].
      cbn [existsb forallb]. rewrite IH, negb_andb. reflexivity. }
    rewrite D. destruct (forallb in_bounds history) eqn:W; cbn [negb].
    + rewrite (run_in_bounds history this W). split; discriminate.
    + rewrite (run_out_of_bounds history this W). split; reflexivity.
Qed.

Lemma undefined_exactly_out_of_bounds_witness :
  in_bounds (Call_eval_h 1 (Array [Binary64Literals.five]) true
               Binary64Literals.one 0 nullptr true 1 nullptr nullptr nullptr)
  = false
  /\
  perform (Call_eval_h 1 (Array [Binary64Literals.five]) true
             Binary64Literals.one 0 nullptr true 1 nullptr nullptr nullptr)
    Build_MinimalNLP
  = None.
Proof.
  split; [reflexivity |].
  apply (undefined_exactly_out_of_bounds
           binary64_ops
           (Call_eval_h 1 (Array [Binary64Literals.five]) true
              Binary64Literals.one 0 nullptr true 1 nullptr nullptr nullptr)
           [] Build_MinimalNLP true Binary64Literals.zero).
  reflexivity.
Defined.

(** ** Calling a callback again on what it returned *)

(** X8.  The writing callbacks are idempotent: when [get_bounds_info],
    [get_starting_point], [eval_grad_f] or [eval_h] has returned, calling
    it again on the buffers it returned (same iterate, same flags, same
    objective weight, any dimensions) returns the same buffers and the
    same [bool]. *)
Theorem callbacks_idempotent :
  forall (Number : Type) (ops : NumberOps Number) (this this' : MinimalNLP)
         (n n' m m' nele nele' : Index) (b init_x init_z init_lambda : bool)
         (new_x new_x' new_lambda new_lambda' : bool)
         (xl xu gl gu x z_L z_U lambda grad_f vals : ptr Number)
         (rows cols : ptr Index) (obj_factor : Number),
    (forall out,
        get_bounds_info n xl xu m gl gu this = Some ((b, out), this') ->
        get_bounds_info n' (x_l out) (x_u out) m' (g_l out) (g_u out) this'
        = Some ((b, out), this'))
    /\ (forall out,
           get_starting_point n init_x x init_z z_L z_U m init_lambda lambda
             this = Some ((b, out), this') ->
           get_starting_point n' init_x (sp_x out) init_z (sp_z_L out)
             (sp_z_U out) m' init_lambda (sp_lambda out) this'
           = Some ((b, out), this'))
    /\ (forall out,
           eval_grad_f n x new_x grad_f this = Some ((b, out), this') ->
           eval_grad_f n' x new_x' out this' = Some ((b, out), this'))
    /\ (forall out,
           eval_h n x new_x obj_factor m lambda new_lambda nele rows cols
             vals this = Some ((b, out), this') ->
           eval_h n' x new_x' obj_factor m' lambda new_lambda' nele'
             (iRow out) (jCol out) (values out) this'
           = Some ((b, out), this')).
Proof.
  intros. split; [| split; [| split]]; intros out E.
  - destruct xl as [| [| l0 lrest]]; try discriminate E.
    destruct xu as [| [| u0 urest]]; try discriminate E.
    injection E as <- <- <-. reflexivity.
  - destruct init_x.
    + destruct x as [| [| x0 rest]]; try discriminate E.
      injection E as <- <- <-. reflexivity.
    + injection E as <- <- <-. reflexivity.
  - destruct x as [| [| x0 rest]]; try discriminate E.
    destruct grad_f as [| [| g0 grest]]; try discriminate E.
    injection E as <- <- <-. reflexivity.
  - destruct vals as [| [| v0 vrest]]; try discriminate E.
    + destruct rows as [| [| r0 rrest]]; try discriminate E.
      destruct cols as [| [| c0 crest]]; try discriminate E.
      injection E as <- <- <-. reflexivity.
    + injection E as <- <- <-. reflexivity.
Qed.

Lemma callbacks_idempotent_witness :
  eval_grad_f 1 (Array [Binary64Literals.five]) true
    (Array [Binary64Literals.zero]) Build_MinimalNLP
  = Some ((true, Array [Binary64Literals.six]), Build_MinimalNLP)
  /\
  eval_grad_f 1 (Array [Binary64Literals.five]) false
    (Array [Binary64Literals.six]) Build_MinimalNLP
  = Some ((true, Array [Binary64Literals.six]), Build_MinimalNLP).
Proof.
  split; [vm_compute; reflexivity |].
  apply (callbacks_idempotent
           binary64_ops Build_MinimalNLP Build_MinimalNLP
           1 1 0 0 1 1 true true false false true false true true
           nullptr nullptr nullptr nullptr (Array [Binary64Literals.five])
           nullptr nullptr nullptr (Array [Binary64Literals.zero]) nullptr
           nullptr nullptr Binary64Literals.one).
  vm_compute. reflexivity.
Defined.

(** ** The trace of [main] *)

Lemma main_cases (app : IpoptApplication) :
  (Initialize_status app <> Solve_Succeeded
   /\ main app
      = (1, before_Initialize ++
            [Initialize; Cerr [Text "IPOPT initialization failed!"; Endl]]))
  \/
  (Initialize_status app = Solve_Succeeded
   /\ OptimizeTNLP_status app Build_MinimalNLP = Solve_Succeeded
   /\ main app
      = (0, before_Initialize ++
            [Initialize; OptimizeTNLP Build_MinimalNLP;
             Cout [Text (String.append newline "Optimization succeeded!");
                   Endl]]))
  \/
  (Initialize_status app = Solve_Succeeded
   /\ OptimizeTNLP_status app Build_MinimalNLP <> Solve_Succeeded
   /\ main app
      = (1, before_Initialize ++
            [Initialize; OptimizeTNLP Build_MinimalNLP;
             Cerr [Text (String.append newline
                           "Optimization failed with status ");
                   Status (OptimizeTNLP_status app Build_MinimalNLP);
                   Endl]])).
Proof.
  unfold main.
  destruct (status_eqb (Initialize_status app) Solve_Succeeded) eqn:I.
  - apply status_eqb_eq in I.
    destruct (status_eqb (OptimizeTNLP_status app Build_MinimalNLP)
                Solve_Succeeded) eqn:O.
    + apply status_eqb_eq in O. right. left.
      split; [exact I |]. split; [exact O |]. reflexivity.
    + apply status_eqb_neq in O. right. right.
      split; [exact I |]. split; [exact O |]. reflexivity.
  - apply status_eqb_neq in I. left. split; [exact I |]. reflexivity.
Qed.

(** X9.  Every run of [main] follows one order: the same banner and the
    three option settings (print_level 5, linear_solver mumps, mu_strategy
    adaptive) come first, whatever the library answers; then [Initialize]
    is called, exactly once; no option is set after it; [OptimizeTNLP] is
    called at most once, after [Initialize], on the [MinimalNLP] object. *)
Theorem main_protocol_order :
  filter is_option before_Initialize
  = [ SetIntegerValue "print_level" 5;
      SetStringValue "linear_solver" "mumps";
      SetStringValue "mu_strategy" "adaptive" ]
  /\ existsb (fun e => is_Initialize e || is_OptimizeTNLP e || is_Cerr e)
       before_Initialize = false
  /\ forall app : IpoptApplication,
     exists after : list event,
       snd (main app) = before_Initialize ++ Initialize :: after
       /\ existsb (fun e => is_option e || is_Initialize e) after = false
       /\ (filter is_OptimizeTNLP after = []
           \/ filter is_OptimizeTNLP after = [OptimizeTNLP Build_MinimalNLP])
       /\ after <> [].
Proof.
  split; [reflexivity |]. split; [reflexivity |].
  intro app.
  destruct (main_cases app) as [(_ & E) | [(_ & _ & E) | (_ & _ & E)]];
    rewrite E; cbn [snd]; eexists; (split; [reflexivity |]);
    (split; [reflexivity |]); split; try discriminate;
    (left; reflexivity) || (right; reflexivity).
Qed.

(** X10.  [main] writes to [std::cerr] exactly when it returns 1, and then
    once, as its last action; a run that returns 0 ends with a line on
    [std::cout].  A status is printed exactly when the solve was attempted
    and failed, and it is the status the solve answered; the status of a
    failed [Initialize] is never printed. *)
Theorem main_error_reporting :
  forall app : IpoptApplication,
    (existsb is_Cerr (snd (main app)) = true <-> fst (main app) = 1)
    /\ (fst (main app) = 1 ->
        filter is_Cerr (snd (main app))
        = [last (snd (main app)) Initialize])
    /\ (fst (main app) = 0 ->
        exists items, last (snd (main app)) Initialize = Cout items)
    /\ (forall s,
           In s (statuses_printed (snd (main app))) <->
           Initialize_status app = Solve_Succeeded
           /\ s = OptimizeTNLP_status app Build_MinimalNLP
           /\ s <> Solve_Succeeded).
Proof.
  intro app.
  destruct (main_cases app) as [(I & E) | [(I & O & E) | (I & O & E)]];
    rewrite E; cbn [fst snd].
  - split; [split; reflexivity |]. split; [intros _; reflexivity |].
    split; [discriminate |].
    intro s. split; [intros [] | intros (I' & _)]. contradiction.
  - split; [split; discriminate |]. split; [discriminate |].
    split; [intros _; eexists; reflexivity |].
    intro s. split; [intros [] | intros (_ & -> & N)]. contradiction.
  - split; [split; reflexivity |]. split; [intros _; reflexivity |].
    split; [discriminate |].
    intro s. split.
    + intros [<- | []]. repeat split; assumption.
    + intros (_ & -> & _). left. reflexivity.
Qed.

Lemma main_error_reporting_witness :
  fst (main {| Initialize_status := Solve_Succeeded;
               OptimizeTNLP_status := fun _ => Infeasible_Problem_Detected |})
  = 1
  /\ In Infeasible_Problem_Detected
       (statuses_printed
          (snd (main {| Initialize_status := Solve_Succeeded;
                        OptimizeTNLP_status :=
                          fun _ => Infeasible_Problem_Detected |}))).
Proof.
  destruct (main_error_reporting
              {| Initialize_status := Solve_Succeeded;
                 OptimizeTNLP_status :=
                   fun _ => Infeasible_Problem_Detected |})
    as (C & _ & _ & P).
  split.
  - apply C. reflexivity.
  - apply P. split; [reflexivity |]. split; [reflexivity | discriminate].
Defined.

(** ** Multiplying a double by 2.0 *)

Lemma mul_two_normal (s : bool) (m : positive) (e : Z) :
  digits2_pos m = 53%positive -> -1074 <= e -> e + 1 <= 971 ->
  Binary64.mul (S754_finite s m e) Binary64Literals.two
  = S754_finite s m (e + 1).
Proof.
  intros D Lo Hi.
  unfold Binary64.mul, Binary64.prec, Binary64.emax, Binary64Literals.two.
  cbn [SFmul].
  rewrite Pos.mul_comm. rewrite xorb_false_r.
  unfold binary_round_aux, shr_fexp.
  cbn [Pos.mul Zdigits2 digits2_pos]. rewrite D.
  cbn [Pos.succ].
  replace (fexp 53 1024 (105 + (e + -51)) - (e + -51)) with 52
    by (unfold fexp, emin; lia).
  cbn [shr shr_record_of_loc SpecFloat.iter_pos shr_1 orb shr_m
       loc_of_shr_record round_nearest_even Zdigits2].
  rewrite D.
  replace (fexp 53 1024 (53 + (e + -51 + 52)) - (e + -51 + 52)) with 0
    by (unfold fexp, emin; lia).
  cbn [shr shr_m].
  replace (e + -51 + 52) with (e + 1) by lia.
  destruct (Z.leb_spec (e + 1) (1024 - 53)); [reflexivity | lia].
Qed.

Lemma two_mul_normal (s : bool) (m : positive) (e : Z) :
  digits2_pos m = 53%positive -> -1074 <= e -> e + 1 <= 971 ->
  Binary64.mul Binary64Literals.two (S754_finite s m e)
  = S754_finite s m (e + 1).
Proof.
  intros D Lo Hi.
  unfold Binary64.mul, Binary64.prec, Binary64.emax, Binary64Literals.two.
  cbn [SFmul xorb].
  unfold binary_round_aux, shr_fexp.
  cbn [Pos.mul Zdigits2 digits2_pos]. rewrite D.
  cbn [Pos.succ].
  replace (fexp 53 1024 (105 + (-51 + e)) - (-51 + e)) with 52
    by (unfold fexp, emin; lia).
  cbn [shr shr_record_of_loc SpecFloat.iter_pos shr_1 orb shr_m
       loc_of_shr_record round_nearest_even Zdigits2].
  rewrite D.
  replace (fexp 53 1024 (53 + (-51 + e + 52)) - (-51 + e + 52)) with 0
    by (unfold fexp, emin; lia).
  cbn [shr shr_m].
  replace (-51 + e + 52) with (e + 1) by lia.
  destruct (Z.leb_spec (e + 1) (1024 - 53)); [reflexivity | lia].
Qed.

Lemma mul_two_overflow (s : bool) (m : positive) :
  digits2_pos m = 53%positive ->
  Binary64.mul (S754_finite s m 971) Binary64Literals.two
  = S754_infinity s.
Proof.
  intros D.
  unfold Binary64.mul, Binary64.prec, Binary64.emax, Binary64Literals.two.
  cbn [SFmul].
  rewrite Pos.mul_comm. rewrite xorb_false_r.
  unfold binary_round_aux, shr_fexp.
  cbn [Pos.mul Zdigits2 digits2_pos]. rewrite D.
  cbn [Pos.succ].
  replace (fexp 53 1024 (105 + (971 + -51)) - (971 + -51)) with 52
    by reflexivity.
  cbn [shr shr_record_of_loc SpecFloat.iter_pos shr_1 orb shr_m
       loc_of_shr_record round_nearest_even Zdigits2].
  rewrite D. reflexivity.
Qed.

(** X11.  On doubles the factor 2.0 costs no rounding.  For a normal
    objective weight (53-bit significand [m], exponent [e] from -1074 to
    970) the value [eval_h] writes has the same sign and significand and
    the exponent [e + 1]: it is exactly twice the weight.  The same holds
    for the gradient: when the difference x[0] - 2.0 is such a normal
    double, [eval_grad_f] writes exactly twice it.  At the largest
    exponent, 971, the Hessian value overflows to the infinity of the
    weight's sign. *)
Theorem doubling_is_exact :
  forall this n x new_x m lambda new_lambda nele_hess iRow jCol v0
         (x0 g0 : Binary64.binary64) (s : bool) (sig : positive) (e : Z),
    digits2_pos sig = 53%positive ->
    -1074 <= e <= 970 ->
    eval_h n x new_x (S754_finite s sig e) m lambda new_lambda nele_hess
      iRow jCol (Array [v0]) this
    = Some ((true, {| iRow := iRow; jCol := jCol;
                      values := Array [S754_finite s sig (e + 1)] |}), this)
    /\ (Binary64.sub x0 Binary64Literals.two = S754_finite s sig e ->
        eval_grad_f n (Array [x0]) new_x (Array [g0]) this
        = Some ((true, Array [S754_finite s sig (e + 1)]), this))
    /\ eval_h n x new_x (S754_finite s sig 971) m lambda new_lambda
         nele_hess iRow jCol (Array [v0]) this
       = Some ((true, {| iRow := iRow; jCol := jCol;
                         values := Array [S754_infinity s] |}), this).
Proof.
  intros this n x new_x m lambda new_lambda nele_hess iRow jCol v0 x0 g0
    s sig e D [Lo Hi].
  split; [| split].
  - rewrite eval_h_values_defined. cbn [Nmul Nlit binary64_ops].
    change (Binary64.of_Z 2) with Binary64Literals.two.
    rewrite (@mul_two_normal s sig e D Lo); [reflexivity | lia].
  - intro E. rewrite eval_grad_f_defined. cbn [Nmul Nsub Nlit binary64_ops].
    change (Binary64.of_Z 2) with Binary64Literals.two.
    rewrite E. rewrite (@two_mul_normal s sig e D Lo); [reflexivity | lia].
  - rewrite eval_h_values_defined. cbn [Nmul Nlit binary64_ops].
    change (Binary64.of_Z 2) with Binary64Literals.two.
    rewrite (@mul_two_overflow s sig D). reflexivity.
Qed.

Lemma doubling_is_exact_witness :
  digits2_pos 5629499534213120 = 53%positive
  /\ -1074 <= -50 <= 970
  /\ eval_h 1 (Array [Binary64Literals.five]) true Binary64Literals.five 0
       nullptr true 1 nullptr nullptr (Array [Binary64Literals.zero])
       Build_MinimalNLP
     = Some ((true,
              {| iRow := nullptr; jCol := nullptr;
                 values := Array [S754_finite false 5629499534213120
                                    (-50 + 1)] |}), Build_MinimalNLP).
Proof.
  split; [reflexivity |]. split; [lia |].
  apply (@doubling_is_exact
           Build_MinimalNLP 1 (Array [Binary64Literals.five]) true 0 nullptr
           true 1 nullptr nullptr Binary64Literals.zero
           Binary64Literals.five Binary64Literals.zero
           false 5629499534213120 (-50)).
  - reflexivity.
  - lia.
Defined.
